(** * Recipient matching and notification pipeline of the invoicing backend

    Shallow embedding of the TypeScript sources:
    - [recipient.util.ts]   : normalizePhone, normalizeEmail, phoneForStorage,
                              emailForStorage
    - [quotations.controller.ts], [invoices.controller.ts] : list, create, get
    - [push.service.ts], [mail.service.ts] : notification channels
    - [profiles.controller.ts], [customers.controller.ts] : write paths
    - [otp.service.ts] : one-time-code store

    JavaScript strings are modelled as [string] (ASCII characters); the
    character-level work is done on [list ascii]. *)

From Stdlib Require Import String Ascii List Bool Arith ZArith Lia.
From stdpp Require Import base gmap strings list.

Import ListNotations.
Local Open Scope list_scope.

(* ------------------------------------------------------------------ *)
(** ** Characters and JavaScript string primitives *)

Module Js.

Definition chars (s : string) : list ascii := list_ascii_of_string s.
Definition of_chars (l : list ascii) : string := string_of_list_ascii l.

(** [\d] of a JavaScript regular expression: ASCII 0-9. *)
Definition is_digit (c : ascii) : bool :=
  (48 <=? nat_of_ascii c) && (nat_of_ascii c <=? 57).

(** [\s] restricted to ASCII: tab, line feed, vertical tab, form feed,
    carriage return and space; the same set [String.prototype.trim]
    removes. *)
Definition is_space (c : ascii) : bool :=
  let n := nat_of_ascii c in ((9 <=? n) && (n <=? 13)) || (n =? 32).

(** [String.prototype.toLowerCase] on ASCII. *)
Definition lower_char (c : ascii) : ascii :=
  let n := nat_of_ascii c in
  if (65 <=? n) && (n <=? 90) then ascii_of_nat (n + 32) else c.

Definition to_lower (l : list ascii) : list ascii := map lower_char l.

Fixpoint drop_spaces (l : list ascii) : list ascii :=
  match l with
  | c :: r => if is_space c then drop_spaces r else l
  | [] => []
  end.

(** [String.prototype.trim]. *)
Definition trim (l : list ascii) : list ascii :=
  rev (drop_spaces (rev (drop_spaces l))).

(** [s.replace(/\D/g, '')]. *)
Definition only_digits (l : list ascii) : list ascii := List.filter is_digit l.

(** [s.slice(-n)] for [n > 0]: the last [n] characters, or all of them. *)
Definition slice_last (n : nat) (l : list ascii) : list ascii :=
  skipn (length l - n) l.

End Js.

(* ------------------------------------------------------------------ *)
(** ** recipient.util.ts *)

Module RecipientUtil.
Import Js.

(** [normalizePhone(phone)]: [if (!phone) return '';
    return String(phone).replace(/\D/g, '').slice(-10);] *)
Definition normalizePhone (phone : option string) : string :=
  match phone with
  | None => ""
  | Some s =>
      if String.eqb s "" then ""
      else of_chars (slice_last 10 (only_digits (chars s)))
  end.

(** [normalizeEmail(email)]: [if (!email || typeof email !== 'string')
    return ''; return email.toLowerCase().trim();] *)
Definition normalizeEmail (email : option string) : string :=
  match email with
  | None => ""
  | Some s =>
      if String.eqb s "" then "" else of_chars (trim (to_lower (chars s)))
  end.

(** [phoneForStorage(phone)]: [const digits = String(phone ?? '')
    .replace(/\D/g, ''); if (digits.length < 10) return null;
    return digits.slice(-10);] *)
Definition phoneForStorage (phone : option string) : option string :=
  let digits := only_digits (chars (default "" phone)) in
  if length digits <? 10 then None else Some (of_chars (slice_last 10 digits)).

(** Character class [[^\s@]] of the e-mail regular expression. *)
Definition email_atom (c : ascii) : bool :=
  negb (is_space c) && negb (Ascii.eqb c "@"%char).

(** The language of [/^[^\s@]+@[^\s@]+\.[^\s@]+$/], written as the regular
    expression reads: three non-empty runs of [[^\s@]] separated by a
    literal ['@'] and a literal ['.']. *)
Definition email_regex (l : list ascii) : Prop :=
  exists a b c : list ascii,
    l = a ++ ["@"%char] ++ b ++ ["."%char] ++ c /\
    a <> [] /\ b <> [] /\ c <> [] /\
    forallb email_atom a = true /\ forallb email_atom b = true /\
    forallb email_atom c = true.

(** Decision procedure for [email_regex], used by [emailForStorage]: the
    part before the first ['@'] is the local part, the rest must be made of
    [[^\s@]] characters with a ['.'] that is neither first nor last. *)
Fixpoint inner_dot (l : list ascii) : bool :=
  match l with
  | c :: ((_ :: _) as r) => Ascii.eqb c "."%char || inner_dot r
  | _ => false
  end.

Definition has_inner_dot (l : list ascii) : bool :=
  match l with
  | _ :: r => inner_dot r
  | [] => false
  end.

Fixpoint split_at_at (l : list ascii) : option (list ascii * list ascii) :=
  match l with
  | [] => None
  | c :: r =>
      if Ascii.eqb c "@"%char then Some ([], r)
      else match split_at_at r with
           | Some (a, b) => Some (c :: a, b)
           | None => None
           end
  end.

Definition email_regex_test (l : list ascii) : bool :=
  match split_at_at l with
  | Some (a, d) =>
      negb (length a =? 0) && forallb email_atom a &&
      forallb email_atom d && has_inner_dot d
  | None => false
  end.

(** [emailForStorage(email)]: [const e = normalizeEmail(email);
    if (!e || !/^[^\s@]+@[^\s@]+\.[^\s@]+$/.test(e)) return null;
    return e;] *)
Definition emailForStorage (email : option string) : option string :=
  let e := normalizeEmail email in
  if String.eqb e "" || negb (email_regex_test (chars e)) then None
  else Some e.

End RecipientUtil.

(* ------------------------------------------------------------------ *)
(** ** Rows of the backing store *)

Module Db.

(** Monetary fields ([qty], [rate], [amount]) are JavaScript numbers; the
    claims below do not depend on them and they are kept as [nat]. *)
Record customer := mkCustomer {
  cust_id : string;
  cust_user_id : string;
  cust_name : option string;
  cust_phone : option string;
  cust_email : option string;
}.

Record profile := mkProfile {
  prof_id : string;
  prof_full_name : option string;
  prof_phone : option string;
  prof_email : option string;
  prof_expo_push_token : option string;
}.

(** An invoice or quotation row ([number] / [quo_number]). *)
Record document := mkDocument {
  doc_id : nat;
  doc_user_id : string;
  doc_customer_id : option string;
  doc_recipient_phone : option string;
  doc_recipient_email : option string;
  doc_number : string;
  doc_status : string;
  doc_type : string;
}.

Record line_item := mkLineItem {
  item_doc_id : nat;
  item_name : string;
  item_qty : nat;
  item_rate : nat;
  item_sort_order : nat;
}.

Record message := mkMessage {
  msg_user_id : string;
  msg_title : string;
}.

Record push_message := mkPush {
  push_to : string;
  push_title : string;
  push_body : string;
}.

(** The store and the outside world seen by one request: tables, the id
    sequence, and what was handed to the push and mail transports. *)
Record st := mkSt {
  st_customers : list customer;
  st_profiles : list profile;
  st_docs : list document;
  st_items : list line_item;
  st_messages : list message;
  st_next_id : nat;
  st_pushed : list push_message;
  st_mailed : list string;
}.

(** Outcomes of the external calls whose failure the code has to handle. *)
Record env := mkEnv {
  env_doc_insert_error : bool;            (** insert of the document row *)
  env_items_insert_error : bool;          (** insert of the line items *)
  env_message_insert_fails : string -> bool; (** messages row for a user *)
  env_rpc : option (list string);         (** find_receiver_ids_by_phone *)
  env_push_client_loads : bool;           (** import('expo-server-sdk') *)
  env_push_chunk_fails : nat -> bool;     (** sendPushNotificationsAsync *)
  env_smtp_configured : bool;             (** SMTP_HOST/USER/PASS set *)
  env_smtp_send_fails : bool;             (** transporter.sendMail *)
}.

Inductive exn :=
| BadRequest (msg : string)
| NotFound (msg : string)
| Failure (msg : string).

Inductive outcome (A : Type) :=
| Ok (a : A)
| Exn (e : exn).
Arguments Ok {A} a.
Arguments Exn {A} e.

(** A request handler: state passing with exceptions; writes made before a
    throw stay in the store, as with independent network calls. *)
Definition M (A : Type) := st -> outcome A * st.

Definition ret {A} (a : A) : M A := fun s => (Ok a, s).
Definition throw {A} (e : exn) : M A := fun s => (Exn e, s).
Definition bind {A B} (m : M A) (k : A -> M B) : M B :=
  fun s => match m s with
           | (Ok a, s') => k a s'
           | (Exn e, s') => (Exn e, s')
           end.
(** [try { m } catch { h }]. *)
Definition try_catch {A} (m : M A) (h : exn -> M A) : M A :=
  fun s => match m s with
           | (Ok a, s') => (Ok a, s')
           | (Exn e, s') => h e s'
           end.
Definition get_st : M st := fun s => (Ok s, s).
Definition put_st (s : st) : M unit := fun _ => (Ok tt, s).

Notation "x <- m ;; k" := (bind m (fun x => k))
  (at level 100, m at next level, right associativity).
Notation "m ;;; k" := (bind m (fun _ => k))
  (at level 100, right associativity).

(** Truthiness of a [string | null | undefined] value. *)
Definition truthy (o : option string) : bool :=
  match o with Some s => negb (String.eqb s "") | None => false end.

(** [a || b] and [a ?? b] on [string | null | undefined]. *)
Definition js_or (a b : option string) : option string :=
  if truthy a then a else b.
Definition js_nullish (a b : option string) : option string :=
  match a with Some _ => a | None => b end.

(** [Set<string>.add]: insertion order, no duplicates. *)
Definition set_add (x : string) (ids : list string) : list string :=
  if existsb (String.eqb x) ids then ids else ids ++ [x].
Definition set_add_all (xs ids : list string) : list string :=
  fold_left (fun acc x => set_add x acc) xs ids.

(** [.single()]: the row when exactly one row matches, else no data. *)
Definition single {A} (l : list A) : option A :=
  match l with [x] => Some x | _ => None end.

Definition find_profile (s : st) (id : string) : option profile :=
  single (List.filter (fun p => String.eqb (prof_id p) id) (st_profiles s)).

Definition find_doc (s : st) (id : nat) : option document :=
  single (List.filter (fun d => Nat.eqb (doc_id d) id) (st_docs s)).

End Db.

(* ------------------------------------------------------------------ *)
(** ** PostgreSQL [LIKE] / [ILIKE] filters as issued through PostgREST *)

Module Like.
Import Js.

(** [LIKE] with [%], [_] and the default escape character [\]; a pattern
    ending in a lone escape character is an error (no rows). *)
Fixpoint like (p s : list ascii) : bool :=
  match p with
  | [] => match s with [] => true | _ => false end
  | c :: p' =>
      if Ascii.eqb c "%"%char then
        (fix any (t : list ascii) : bool :=
           like p' t || match t with [] => false | _ :: t' => any t' end) s
      else if Ascii.eqb c "_"%char then
        match s with [] => false | _ :: s' => like p' s' end
      else if Ascii.eqb c "\"%char then
        match p', s with
        | e :: p'', c' :: s' => Ascii.eqb e c' && like p'' s'
        | _, _ => false
        end
      else
        match s with [] => false | c' :: s' => Ascii.eqb c c' && like p' s' end
  end.

(** PostgREST reads [*] in a [like]/[ilike] operand as [%]. *)
Definition postgrest_pattern (v : string) : list ascii :=
  map (fun c => if Ascii.eqb c "*"%char then "%"%char else c) (chars v).

(** [.like(col, v)] and [.ilike(col, v)] on a nullable column. *)
Definition like_filter (v : string) (col : option string) : bool :=
  match col with Some x => like (postgrest_pattern v) (chars x) | None => false end.
Definition ilike_filter (v : string) (col : option string) : bool :=
  match col with
  | Some x => like (to_lower (postgrest_pattern v)) (to_lower (chars x))
  | None => false
  end.

(** [.eq(col, v)] on a nullable column. *)
Definition eq_filter (v : string) (col : option string) : bool :=
  match col with Some x => String.eqb x v | None => false end.

End Like.

(* ------------------------------------------------------------------ *)
(** ** Receiver resolution (invoice and quotation create) *)

Module Receivers.
Import Db Like.

Definition select_ids (P : profile -> bool) (uid : string) (ps : list profile)
  : list string :=
  map prof_id (List.filter (fun p => P p && negb (String.eqb (prof_id p) uid)) ps).

(** invoices.controller.ts, create: [receiverIds] from the exact phone
    match, the [like '%phone'] match only when the first gave nothing, and
    the [ilike] e-mail match; [.neq('id', uid)] on every query. *)
Definition invoice_receiver_ids (ps : list profile) (uid : string)
    (recipientPhone recipientEmail : option string) : list string :=
  let ids :=
    match recipientPhone with
    | Some ph =>
        if truthy recipientPhone then
          let ids1 := set_add_all
            (select_ids (fun p => eq_filter ph (prof_phone p)) uid ps) [] in
          if Nat.eqb (length ids1) 0 then
            set_add_all
              (select_ids (fun p => like_filter ("%" ++ ph) (prof_phone p)) uid ps)
              ids1
          else ids1
        else []
    | None => []
    end in
  match recipientEmail with
  | Some em =>
      if truthy recipientEmail then
        set_add_all (select_ids (fun p => ilike_filter em (prof_email p)) uid ps) ids
      else ids
  | None => ids
  end.

(** [byPhoneRpc.forEach((r) => r?.id && receiverIds.add(String(r.id)))]:
    the ids of the RPC's rows, falsy ones skipped; nothing when the RPC is
    missing or fails. *)
Definition rpc_ids (rpc : option (list string)) : list string :=
  List.filter (fun i => truthy (Some i)) (default [] rpc).

(** quotations.controller.ts, create: the [find_receiver_ids_by_phone] RPC
    first (its rows, or nothing when it is missing or fails); only when it
    yields no id, the exact and the [ilike '%phone'] matches together. *)
Definition quotation_receiver_ids (rpc : option (list string))
    (ps : list profile) (uid : string)
    (recipientPhone recipientEmail : option string) : list string :=
  let ids :=
    match recipientPhone with
    | Some ph =>
        if truthy recipientPhone then
          let ids1 := set_add_all (rpc_ids rpc) [] in
          if Nat.eqb (length ids1) 0 then
            set_add_all
              (select_ids (fun p => eq_filter ph (prof_phone p)) uid ps ++
               select_ids (fun p => ilike_filter ("%" ++ ph) (prof_phone p)) uid ps)
              ids1
          else ids1
        else []
    | None => []
    end in
  match recipientEmail with
  | Some em =>
      if truthy recipientEmail then
        set_add_all (select_ids (fun p => ilike_filter em (prof_email p)) uid ps) ids
      else ids
  | None => ids
  end.

End Receivers.

(* ------------------------------------------------------------------ *)
(** ** Notification channels: push.service.ts and mail.service.ts *)

Module Channels.
Import Js Db.

Section Channels.
Variable E : env.

Definition add_message (m : message) (s : st) : st :=
  mkSt (st_customers s) (st_profiles s) (st_docs s) (st_items s)
       (st_messages s ++ [m]) (st_next_id s) (st_pushed s) (st_mailed s).
Definition add_pushed (ms : list push_message) (s : st) : st :=
  mkSt (st_customers s) (st_profiles s) (st_docs s) (st_items s)
       (st_messages s) (st_next_id s) (st_pushed s ++ ms) (st_mailed s).
Definition add_mailed (to : string) (s : st) : st :=
  mkSt (st_customers s) (st_profiles s) (st_docs s) (st_items s)
       (st_messages s) (st_next_id s) (st_pushed s) (st_mailed s ++ [to]).

(** [client.from('messages').insert({...})]: the row is written unless the
    insert fails (an error result or a rejected promise). *)
Definition insert_message (uid title : string) : M unit :=
  if env_message_insert_fails E uid then throw (Failure "messages insert failed")
  else s <- get_st ;; put_st (add_message (mkMessage uid title) s).

(** [MailService.sendInvoiceNotificationToReceiver]: [sendMail] when a
    transporter is configured, a console line otherwise. *)
Definition send_invoice_mail (to : string) : M unit :=
  if env_smtp_configured E then
    if env_smtp_send_fails E then throw (Failure "sendMail failed")
    else s <- get_st ;; put_st (add_mailed (of_chars (to_lower (trim (chars to)))) s)
  else ret tt.

(** [/^ExponentPushToken\[.+\]$/.test(token)]; [.] excludes line
    terminators (ASCII: line feed and carriage return). *)
Definition isExpoPushToken (token : string) : bool :=
  let l := chars token in
  let pre := chars "ExponentPushToken[" in
  let rest := skipn (length pre) l in
  String.eqb (of_chars (firstn (length pre) l)) "ExponentPushToken[" &&
  (2 <=? length rest) &&
  Ascii.eqb (List.last rest "x"%char) "]"%char &&
  forallb (fun c => negb (Ascii.eqb c "010"%char || Ascii.eqb c "013"%char))
          (List.removelast rest).

(** [Expo.chunkPushNotifications]: chunks of at most 100 messages. *)
Fixpoint chunk_aux {A} (fuel : nat) (l : list A) : list (list A) :=
  match fuel with
  | 0 => []
  | S f => match l with [] => [] | _ => firstn 100 l :: chunk_aux f (skipn 100 l) end
  end.
Definition chunkPushNotifications {A} (l : list A) : list (list A) :=
  chunk_aux (length l) l.

(** [for (const chunk of chunks) { try { await send(chunk) } catch {log} }] *)
Fixpoint send_chunks (i : nat) (cs : list (list push_message)) : M unit :=
  match cs with
  | [] => ret tt
  | c :: cs' =>
      try_catch
        (if env_push_chunk_fails E i then throw (Failure "push send failed")
         else s <- get_st ;; put_st (add_pushed c s))
        (fun _ => ret tt) ;;;
      send_chunks (S i) cs'
  end.

(** [PushService.getClient]: the lazily imported Expo client. *)
Definition push_getClient : M unit :=
  if env_push_client_loads E then ret tt
  else throw (Failure "import('expo-server-sdk') rejected").

(** [PushService.sendMany] (the lazily loading version). *)
Definition sendMany (recipients : list push_message) : M unit :=
  push_getClient ;;;
  if Nat.eqb (length recipients) 0 then ret tt else
  let messages := List.filter
    (fun r => truthy (Some (push_to r)) && isExpoPushToken (push_to r)) recipients in
  if Nat.eqb (length messages) 0 then ret tt
  else send_chunks 0 (chunkPushNotifications messages).

End Channels.
End Channels.

(* ------------------------------------------------------------------ *)
(** ** Document creation (invoices and quotations) *)

Module Create.
Import Js RecipientUtil Db Like Receivers Channels.

Record item_dto := mkItemDto {
  dto_name : option string;
  dto_qty : option nat;
  dto_rate : option nat;
  dto_sort_order : option nat;
}.

(** Request body of [POST /invoices] and [POST /quotations]; [b_number] is
    [number] or [quo_number]. [recipient_phone]/[recipient_email] and
    [amount] are read by the quotation handler only. *)
Record create_body := mkBody {
  b_customer_id : option string;
  b_number : option string;
  b_status : option string;
  b_type : option string;
  b_recipient_phone : option string;
  b_recipient_email : option string;
  b_amount : option nat;
  b_items : list item_dto;
}.

(** The decimal digits of [n], least significant first. *)
Fixpoint rev_digits_fuel (fuel n : nat) : list ascii :=
  match fuel with
  | 0 => []
  | S f => ascii_of_nat (48 + n mod 10) ::
             (if n <? 10 then [] else rev_digits_fuel f (n / 10))
  end.

Definition rev_digits (n : nat) : list ascii := rev_digits_fuel (S n) n.

(** Indian digit grouping on reversed digits: three digits, then groups
    of two. *)
Fixpoint group_pairs (l : list ascii) : list ascii :=
  match l with
  | a :: b :: ((_ :: _) as r) => a :: b :: ","%char :: group_pairs r
  | _ => l
  end.

Definition en_IN_rev (l : list ascii) : list ascii :=
  match l with
  | a :: b :: c :: ((_ :: _) as r) => a :: b :: c :: ","%char :: group_pairs r
  | _ => l
  end.

(** [n.toLocaleString('en-IN')] for a whole non-negative amount. *)
Definition toLocaleString_en_IN (n : nat) : string :=
  of_chars (rev (en_IN_rev (rev_digits n))).

Definition trim_s (x : string) : string := of_chars (trim (chars x)).
Definition lower_trim_s (x : string) : string := of_chars (trim (to_lower (chars x))).

(** [!body?.number?.trim()] *)
Definition number_missing (b : create_body) : bool :=
  match b_number b with Some n => String.eqb (trim_s n) "" | None => true end.

Definition set_docs (ds : list document) (s : st) : st :=
  mkSt (st_customers s) (st_profiles s) ds (st_items s)
       (st_messages s) (st_next_id s) (st_pushed s) (st_mailed s).

Definition to_line_item (docid idx : nat) (it : item_dto) : line_item :=
  mkLineItem docid
    (default "Item" (js_or (dto_name it) None))
    (default 1 (dto_qty it)) (default 0 (dto_rate it))
    (default idx (dto_sort_order it)).

Fixpoint to_line_items (docid idx : nat) (its : list item_dto) : list line_item :=
  match its with
  | [] => []
  | it :: r => to_line_item docid idx it :: to_line_items docid (S idx) r
  end.

Section Handlers.
Variable E : env.

(** [customers] row [.eq('id', cid).eq('user_id', uid).single()] *)
Definition customer_row (s : st) (cid uid : string) : option customer :=
  single (List.filter
    (fun c => String.eqb (cust_id c) cid && String.eqb (cust_user_id c) uid)
    (st_customers s)).

Definition lookup_customer (cid uid : string) : M (option customer) :=
  s <- get_st ;; ret (customer_row s cid uid).

(** [.insert(payload).select().single()]; an error is rethrown as a
    [BadRequestException]. *)
Definition insert_document (mk : nat -> document) : M document :=
  if env_doc_insert_error E then throw (BadRequest "document insert failed") else
  s <- get_st ;;
  let d := mk (st_next_id s) in
  put_st (mkSt (st_customers s) (st_profiles s) (st_docs s ++ [d]) (st_items s)
               (st_messages s) (S (st_next_id s)) (st_pushed s) (st_mailed s)) ;;;
  ret d.

Definition insert_items (docid : nat) (its : list item_dto) : M unit :=
  if Nat.eqb (length its) 0 then ret tt else
  if env_items_insert_error E then throw (BadRequest "items insert failed") else
  s <- get_st ;;
  put_st (mkSt (st_customers s) (st_profiles s) (st_docs s)
               (st_items s ++ to_line_items docid 0 its)
               (st_messages s) (st_next_id s) (st_pushed s) (st_mailed s)).

(** [fullDocument ?? document] *)
Definition refetch (d : document) : M document :=
  s <- get_st ;; ret (default d (find_doc s (doc_id d))).

(** The embedded [customers (id, name, phone, email)] of a document. *)
Definition embedded_customer (s : st) (d : document) : option customer :=
  match doc_customer_id d with
  | Some cid => single (List.filter (fun c => String.eqb (cust_id c) cid) (st_customers s))
  | None => None
  end.

Definition sender_name (s : st) (uid : string) : string :=
  default "A user" (match find_profile s uid with Some p => prof_full_name p | None => None end).

Definition push_token (s : st) (uid : string) : option string :=
  match find_profile s uid with Some p => prof_expo_push_token p | None => None end.

Definition notify_all (uids : list string) (title : string) : M unit :=
  fold_right (fun rid k => try_catch (insert_message E rid title) (fun _ => ret tt) ;;; k)
    (ret tt) uids.

(** quotations.controller.ts, [create], recipient identity: the customer's
    [phoneForStorage]/[emailForStorage] values, each replaced by the
    body's [recipient_phone]/[recipient_email] when that one is valid. *)
Definition quotation_recipient (cust : option customer) (b : create_body)
    : option string * option string :=
  let custPhone := match cust with Some c => phoneForStorage (cust_phone c) | None => None end in
  let custEmail := match cust with Some c => emailForStorage (cust_email c) | None => None end in
  (js_or (phoneForStorage (b_recipient_phone b)) custPhone,
   js_or (emailForStorage (b_recipient_email b)) custEmail).

(** quotations.controller.ts, [create]. *)
Definition quotation_create (uid : string) (b : create_body) : M document :=
  if number_missing b then throw (BadRequest "Quote number is required") else
  cust <- (match b_customer_id b with
           | Some cid => if truthy (Some cid) then lookup_customer cid uid else ret None
           | None => ret None
           end) ;;
  let '(recipientPhone, recipientEmail) := quotation_recipient cust b in
  if negb (truthy recipientPhone) && negb (truthy recipientEmail) then
    throw (BadRequest "Customer must have a phone or email, or provide recipient_phone/recipient_email, so the recipient can see this quotation when they sign up.")
  else
  quotation <- insert_document (fun id =>
    mkDocument id uid (js_or (b_customer_id b) None) recipientPhone recipientEmail
      (trim_s (default "" (b_number b)))
      (default "draft" (js_or (b_status b) None))
      (default "sent" (js_or (b_type b) None))) ;;
  insert_items (doc_id quotation) (b_items b) ;;;
  resolved <- refetch quotation ;;
  s <- get_st ;;
  let customerName := default "Customer"
    (match embedded_customer s resolved with Some c => cust_name c | None => None end) in
  let senderName := sender_name s uid in
  (* [resolved.amount]: the row just written, whose [amount] is
     [Number(body.amount) || 0]. *)
  let amount := default 0 (b_amount b) in
  try_catch (insert_message E uid
    ("Quotation " ++ doc_number resolved ++ " sent to " ++ customerName))
    (fun _ => ret tt) ;;;
  let receiverIds := quotation_receiver_ids (env_rpc E) (st_profiles s) uid
                       recipientPhone recipientEmail in
  notify_all receiverIds
    ("New quotation " ++ doc_number resolved ++ " from " ++ senderName) ;;;
  s' <- get_st ;;
  let senderPush :=
    match push_token s' uid with
    | Some t => if truthy (Some t)
                then [mkPush t ("Quotation " ++ doc_number resolved ++ " sent")
                        ("You sent quotation " ++ doc_number resolved ++ " to " ++ customerName ++ ".")]
                else []
    | None => []
    end in
  let receiverPush := flat_map (fun rid =>
    match push_token s' rid with
    | Some t => if truthy (Some t)
                then [mkPush t ("New quotation from " ++ senderName)
                        (senderName ++ " sent you quotation " ++ doc_number resolved ++
                         " for ₹" ++ toLocaleString_en_IN amount ++ ".")]
                else []
    | None => []
    end) receiverIds in
  let pushRecipients := senderPush ++ receiverPush in
  (if Nat.ltb 0 (length pushRecipients) then sendMany E pushRecipients else ret tt) ;;;
  ret resolved.

(** invoices.controller.ts (the version resolving recipients), [create]:
    recipient identity from the customer row only. *)
Definition invoice_recipient (uid : string) (b : create_body)
    : M (option string * option string) :=
  match b_customer_id b with
  | Some cid =>
      if truthy (Some cid) then
        cust <- lookup_customer cid uid ;;
        match cust with
        | Some c =>
            let raw := option_map trim_s (cust_phone c) in
            let recipientPhone :=
              match raw with
              | Some r => if truthy raw
                          then js_or (Some (of_chars (slice_last 10 (only_digits (chars r))))) None
                          else None
              | None => None
              end in
            let recipientEmail := js_or (option_map lower_trim_s (cust_email c)) None in
            if negb (truthy recipientPhone) && negb (truthy recipientEmail) then
              throw (BadRequest "Customer must have a phone number or email so the recipient can see this invoice when they sign up.")
            else ret (recipientPhone, recipientEmail)
        | None => ret (None, None)
        end
      else ret (None, None)
  | None => ret (None, None)
  end.

Definition invoice_create (uid : string) (b : create_body) : M document :=
  if number_missing b then throw (BadRequest "Invoice number is required") else
  rcpt <- invoice_recipient uid b ;;
  let '(recipientPhone, recipientEmail) := rcpt in
  invoice <- insert_document (fun id =>
    mkDocument id uid (js_or (b_customer_id b) None) recipientPhone recipientEmail
      (trim_s (default "" (b_number b)))
      (default "pending" (js_or (b_status b) None))
      (default "sent" (js_or (b_type b) None))) ;;
  insert_items (doc_id invoice) (b_items b) ;;;
  resolved <- refetch invoice ;;
  s <- get_st ;;
  let customer := embedded_customer s resolved in
  let customerName := default "Customer"
    (match customer with Some c => cust_name c | None => None end) in
  let customerEmail := match customer with
                       | Some c => option_map trim_s (cust_email c) | None => None end in
  let senderName := sender_name s uid in
  try_catch (insert_message E uid
    ("Invoice " ++ doc_number resolved ++ " sent to " ++ customerName))
    (fun _ => ret tt) ;;;
  let receiverIds := invoice_receiver_ids (st_profiles s) uid
                       recipientPhone recipientEmail in
  notify_all receiverIds
    ("New invoice " ++ doc_number resolved ++ " from " ++ senderName) ;;;
  (match customerEmail with
   | Some ce =>
       if truthy customerEmail && email_regex_test (chars ce)
       then try_catch (send_invoice_mail E ce) (fun _ => ret tt)
       else ret tt
   | None => ret tt
   end) ;;;
  ret resolved.

End Handlers.
End Create.

(* ------------------------------------------------------------------ *)
(** ** Received-documents view: get-by-id, caller identity of the lists,
       update *)

Module View.
Import Js RecipientUtil Db Create.

(** The authenticated caller as the auth guard hands it over:
    [{ id, email?, phone?, user_metadata?: { phone?, email? } }]. *)
Record auth_user := mkAuthUser {
  au_id : string;
  au_email : option string;
  au_phone : option string;
  au_meta_phone : option string;
  au_meta_email : option string;
}.

Definition with_type (d : document) (t : string) : document :=
  mkDocument (doc_id d) (doc_user_id d) (doc_customer_id d)
    (doc_recipient_phone d) (doc_recipient_email d) (doc_number d)
    (doc_status d) t.

Definition profile_phone (p : option profile) : option string :=
  match p with Some r => prof_phone r | None => None end.
Definition profile_email (p : option profile) : option string :=
  match p with Some r => prof_email r | None => None end.

(** quotations.controller.ts, [get]. *)
Definition quotation_get (u : auth_user) (id : nat) (s : st) : outcome document :=
  match find_doc s id with
  | None => Exn (NotFound "Quotation not found")
  | Some q =>
      if String.eqb (doc_user_id q) (au_id u) then Ok q else
      let profile := find_profile s (au_id u) in
      let profilePhone := js_nullish (profile_phone profile) (au_meta_phone u) in
      let myPhone := normalizePhone profilePhone in
      let myEmail := normalizeEmail
        (js_nullish (profile_email profile) (js_nullish (au_email u) (Some ""))) in
      let rPhone := normalizePhone (doc_recipient_phone q) in
      let rEmail := normalizeEmail (doc_recipient_email q) in
      let isRecipient :=
        (truthy (Some myPhone) && truthy (Some rPhone) && String.eqb myPhone rPhone) ||
        (truthy (Some myEmail) && truthy (Some rEmail) && String.eqb myEmail rEmail) in
      if isRecipient then Ok (with_type q "received")
      else Exn (NotFound "Quotation not found")
  end.

(** invoices.controller.ts (the version resolving recipients), [get]: the
    private [normalizePhone] has the body of the shared one; e-mails are
    [.toLowerCase().trim()]'d inline. *)
Definition invoice_get (u : auth_user) (id : nat) (s : st) : outcome document :=
  match find_doc s id with
  | None => Exn (NotFound "Invoice not found")
  | Some inv =>
      if String.eqb (doc_user_id inv) (au_id u) then Ok inv else
      let profile := find_profile s (au_id u) in
      let profilePhone := js_nullish (profile_phone profile) (au_meta_phone u) in
      let myPhone := normalizePhone profilePhone in
      let myEmail := lower_trim_s
        (default "" (js_nullish (profile_email profile) (js_nullish (au_email u) (Some "")))) in
      let rPhone := normalizePhone (doc_recipient_phone inv) in
      let rEmail := lower_trim_s (default "" (js_nullish (doc_recipient_email inv) (Some ""))) in
      let isRecipient :=
        (truthy (Some myPhone) && truthy (Some rPhone) && String.eqb myPhone rPhone) ||
        (truthy (Some myEmail) && truthy (Some rEmail) && String.eqb myEmail rEmail) in
      if isRecipient then Ok (with_type inv "received")
      else Exn (NotFound "Invoice not found")
  end.

(** quotations.controller.ts, [list]: the caller's [{myPhone, myEmail}],
    computed from the profile row as it stands after the self-healing
    upsert/update of the same handler. *)
Definition quotation_list_identity (profile : option profile) (u : auth_user)
    : string * string :=
  let authEmail := au_email u in
  let authPhone := au_phone u in
  let metaPhone := js_nullish (au_meta_phone u) authPhone in
  let metaEmail := js_nullish (au_meta_email u) authEmail in
  let profilePhone := profile_phone profile in
  let profileEmail := profile_email profile in
  (normalizePhone (js_or metaPhone (js_or authPhone (js_or profilePhone (Some "")))),
   normalizeEmail (js_or authEmail (js_or metaEmail (js_or profileEmail (Some ""))))).

(** invoices.controller.ts (the version resolving recipients), [list]. *)
Definition invoice_list_identity (profile : option profile) (u : auth_user)
    : string * string :=
  let profilePhone := js_nullish (profile_phone profile) (au_meta_phone u) in
  let profileEmail := js_nullish (profile_email profile)
                        (js_nullish (au_email u) (js_nullish (au_meta_email u) (Some ""))) in
  (normalizePhone profilePhone, lower_trim_s (default "" profileEmail)).

(** [PATCH /invoices/:id] body: the fields the claims look at. *)
Record update_body := mkUpdate {
  u_number : option string;
  u_status : option string;
  u_type : option string;
}.

Definition apply_update (ub : update_body) (d : document) : document :=
  mkDocument (doc_id d) (doc_user_id d) (doc_customer_id d)
    (doc_recipient_phone d) (doc_recipient_email d)
    (default (doc_number d) (u_number ub)) (default (doc_status d) (u_status ub))
    (default (doc_type d) (u_type ub)).

(** invoices.controller.ts, [update]: [.update(body).eq('id', id)
    .eq('user_id', uid).select().single()]. *)
Definition invoice_update (uid : string) (id : nat) (ub : update_body) : M document :=
  s <- get_st ;;
  let owned d := Nat.eqb (doc_id d) id && String.eqb (doc_user_id d) uid in
  match single (List.filter owned (st_docs s)) with
  | None => throw (BadRequest "JSON object requested, multiple (or no) rows returned")
  | Some d =>
      put_st (set_docs (map (fun x => if owned x then apply_update ub x else x) (st_docs s)) s) ;;;
      ret (apply_update ub d)
  end.

End View.

(* ------------------------------------------------------------------ *)
(** ** Phone and e-mail write paths: profiles and customers *)

Module WritePaths.
Import Js RecipientUtil Db Create.

(** A field of a PATCH body: [None] when absent ([undefined]), [Some None]
    for JSON [null], [Some (Some v)] for a string. The functions return the
    value written to the column, [None] when the column is not written. *)

(** profiles.controller.ts, [updateMe], [phone]:
    [const digits = body.phone?.trim()?.replace(/\D/g, '') || '';
     updates.phone = digits.length >= 10 ? digits.slice(-10) : null;] *)
Definition profile_update_phone (phone : option (option string))
    : option (option string) :=
  match phone with
  | None => None
  | Some v =>
      let digits := match v with
                    | Some x => only_digits (trim (chars x))
                    | None => []
                    end in
      Some (if 10 <=? length digits then Some (of_chars (slice_last 10 digits)) else None)
  end.

(** [updates.email = body.email?.trim() || null;] *)
Definition profile_update_email (email : option (option string))
    : option (option string) :=
  match email with
  | None => None
  | Some v => Some (js_or (option_map trim_s v) None)
  end.

(** customers.controller.ts, [create]: [phoneForStorage(body.phone) ?? null],
    [emailForStorage(body.email) ?? null]. *)
Definition customer_create_phone (phone : option string) : option string :=
  js_nullish (phoneForStorage phone) None.
Definition customer_create_email (email : option string) : option string :=
  js_nullish (emailForStorage email) None.

(** customers.controller.ts, [update]. *)
Definition customer_update_phone (phone : option (option string))
    : option (option string) :=
  match phone with
  | None => None
  | Some v => Some (js_nullish (phoneForStorage v) None)
  end.

(** [updates.email = emailForStorage(body.email) || body.email?.trim() || null;] *)
Definition customer_update_email (email : option (option string))
    : option (option string) :=
  match email with
  | None => None
  | Some v => Some (js_or (emailForStorage v) (js_or (option_map trim_s v) None))
  end.

End WritePaths.

(* ------------------------------------------------------------------ *)
(** ** otp.service.ts: the in-memory code store *)

Module Otp.
Import Js Create.

Record StoredOtp := mkStoredOtp { otp_code : string; otp_expiresAt : Z }.
Record StoredResetToken := mkStoredResetToken { rt_email : string; rt_expiresAt : Z }.

Record otp_state := mkOtpState {
  otpStore : gmap string StoredOtp;
  resetTokenStore : gmap string StoredResetToken;
}.

Inductive verdict (A : Type) := Returned (a : A) | Thrown (msg : string).
Arguments Returned {A} a.
Arguments Thrown {A} msg.

(** [email.trim().toLowerCase()] *)
Definition otp_key (email : string) : string := of_chars (to_lower (trim (chars email))).

Definition set_otp (m : gmap string StoredOtp) (s : otp_state) : otp_state :=
  mkOtpState m (resetTokenStore s).

(** [verifyOtp(email, code)] at time [now] ([Date.now()]); [resetToken] is
    the value [crypto.randomBytes(32).toString('hex')] produces. *)
Definition verifyOtp (email code : string) (now : Z) (resetToken : string)
    (s : otp_state) : verdict string * otp_state :=
  let normalized := otp_key email in
  match otpStore s !! normalized with
  | None => (Thrown "No OTP found for this email. Please request a new code.", s)
  | Some stored =>
      if (otp_expiresAt stored <? now)%Z then
        (Thrown "OTP has expired. Please request a new code.",
         set_otp (delete normalized (otpStore s)) s)
      else if negb (String.eqb (otp_code stored) (trim_s code)) then
        (Thrown "Invalid verification code.", s)
      else
        (Returned resetToken,
         mkOtpState (delete normalized (otpStore s))
           (<[resetToken := mkStoredResetToken normalized (now + 15 * 60 * 1000)%Z]>
              (resetTokenStore s)))
  end.

(** [verifyOtpOnly(email, code)] at time [now]. *)
Definition verifyOtpOnly (email code : string) (now : Z) (s : otp_state)
    : verdict unit * otp_state :=
  let normalized := otp_key email in
  match otpStore s !! normalized with
  | None => (Thrown "No OTP found for this email. Please request a new code.", s)
  | Some stored =>
      if (otp_expiresAt stored <? now)%Z then
        (Thrown "OTP has expired. Please request a new code.",
         set_otp (delete normalized (otpStore s)) s)
      else if negb (String.eqb (otp_code stored) (trim_s code)) then
        (Thrown "Invalid verification code.", s)
      else
        (Returned tt, set_otp (delete normalized (otpStore s)) s)
  end.

End Otp.

(* ------------------------------------------------------------------ *)
(** ** otp.service.ts: sending codes, reset tokens, cleanup; and the
       auth.controller.ts handlers that call them *)

Module OtpFlow.
Import Js RecipientUtil Db Create Otp.

(** [sendOtp(email)] at time [now], with [code] the value of
    [generateCode()]; [transporter] tells whether SMTP is configured and
    [mail_fails] whether [transporter.sendMail] rejects. The code is stored
    before the mail is sent. *)
Definition sendOtp (email code : string) (now : Z) (transporter mail_fails : bool)
    (s : otp_state) : verdict unit * otp_state :=
  let normalized := otp_key email in
  if negb (email_regex_test (chars normalized)) then (Thrown "Invalid email address", s)
  else
    let s' := set_otp (<[normalized := mkStoredOtp code (now + 10 * 60 * 1000)%Z]>
                         (otpStore s)) s in
    if transporter && mail_fails then (Thrown "sendMail failed", s')
    else (Returned tt, s').

Definition set_reset (m : gmap string StoredResetToken) (s : otp_state) : otp_state :=
  mkOtpState (otpStore s) m.

(** [consumeResetToken(token)] at time [now]. *)
Definition consumeResetToken (token : string) (now : Z) (s : otp_state)
    : verdict string * otp_state :=
  match resetTokenStore s !! token with
  | None => (Thrown "Invalid or expired reset token.", s)
  | Some stored =>
      if (rt_expiresAt stored <? now)%Z then
        (Thrown "Reset token has expired.", set_reset (delete token (resetTokenStore s)) s)
      else (Returned (rt_email stored), set_reset (delete token (resetTokenStore s)) s)
  end.

(** [cleanup()] at time [now]: every entry with [expiresAt < now] is
    deleted from both maps (deleting the current entry while iterating a
    [Map] visits every entry). *)
Definition cleanup (now : Z) (s : otp_state) : otp_state :=
  mkOtpState
    (filter (fun kv => ~ (otp_expiresAt kv.2 < now)%Z) (otpStore s))
    (filter (fun kv => ~ (rt_expiresAt kv.2 < now)%Z) (resetTokenStore s)).

(** auth.controller.ts, [POST send-otp]: [body.email?.trim()] must be
    non-empty and match the e-mail regular expression; then [cleanup()] and
    [sendOtp(email)], an error of either being rethrown with its message
    (a [Thrown] verdict stands for the [BadRequestException]). *)
Definition send_otp_handler (email : option string) (code : string) (now : Z)
    (transporter mail_fails : bool) (s : otp_state) : verdict string * otp_state :=
  let email' := option_map trim_s email in
  if negb (truthy email') then (Thrown "Email is required", s) else
  let e := default "" email' in
  if negb (email_regex_test (chars e)) then
    (Thrown "Please enter a valid email address", s)
  else
    match sendOtp e code now transporter mail_fails (cleanup now s) with
    | (Returned _, s') => (Returned "Verification code sent to your email", s')
    | (Thrown msg, s') => (Thrown msg, s')
    end.

(** auth.controller.ts, [POST verify-otp]: both fields trimmed and
    required, then [verifyOtp(email, code)] with its error message
    rethrown. *)
Definition verify_otp_handler (email code : option string) (now : Z)
    (resetToken : string) (s : otp_state) : verdict string * otp_state :=
  let email' := option_map trim_s email in
  let code' := option_map trim_s code in
  if negb (truthy email') || negb (truthy code') then
    (Thrown "Email and code are required", s)
  else verifyOtp (default "" email') (default "" code') now resetToken s.

End OtpFlow.

(* ------------------------------------------------------------------ *)
(** ** push.service.ts: [send] *)

Module PushSend.
Import Db Channels.

Section PushSend.
Variable E : env.

(** [PushService.send(to, title, body)]: the client, then nothing for a
    token that is not an Expo token, else one message chunked and sent with
    a failing chunk logged. *)
Definition push_send (to title body : string) : M unit :=
  push_getClient E ;;;
  if negb (isExpoPushToken to) then ret tt
  else send_chunks E 0 (chunkPushNotifications [mkPush to title body]).

End PushSend.
End PushSend.

(* ------------------------------------------------------------------ *)
(** ** invoices.controller.ts: [delete], [addItem] *)

Module InvoiceItems.
Import Db Create.

Section InvoiceItems.
(** Whether the write of the handler ([delete] / [insert]) reports an
    error. *)
Variable db_error : bool.

(** [.from('invoices').delete().eq('id', id).eq('user_id', uid)] *)
Definition invoice_delete (uid : string) (id : nat) : M bool :=
  if db_error then throw (BadRequest "invoice delete failed") else
  s <- get_st ;;
  put_st (set_docs (List.filter
            (fun d => negb (Nat.eqb (doc_id d) id && String.eqb (doc_user_id d) uid))
            (st_docs s)) s) ;;;
  ret true.

(** [addItem]: the invoice [.eq('id', id).eq('user_id', uid).single()],
    [NotFoundException] without it; then the item with [name || 'Item'],
    [qty ?? 1], [rate ?? 0], [sort_order ?? 0]. *)
Definition invoice_addItem (uid : string) (id : nat) (body : item_dto) : M line_item :=
  s <- get_st ;;
  let owned d := Nat.eqb (doc_id d) id && String.eqb (doc_user_id d) uid in
  match single (List.filter owned (st_docs s)) with
  | None => throw (NotFound "Invoice not found")
  | Some _ =>
      if db_error then throw (BadRequest "item insert failed") else
      let it := to_line_item id 0 body in
      put_st (mkSt (st_customers s) (st_profiles s) (st_docs s) (st_items s ++ [it])
                   (st_messages s) (st_next_id s) (st_pushed s) (st_mailed s)) ;;;
      ret it
  end.

End InvoiceItems.
End InvoiceItems.

(* ------------------------------------------------------------------ *)
(** ** customers.controller.ts (the version storing normalised values) *)

Module Customers.
Import Db Create WritePaths.

(** [PATCH /customers/:id] body: [name], [phone], [email] as PATCH fields
    ([None] absent, [Some None] JSON null). *)
Record customer_patch := mkPatch {
  cp_name : option (option string);
  cp_phone : option (option string);
  cp_email : option (option string);
}.

Definition set_customers (cs : list customer) (s : st) : st :=
  mkSt cs (st_profiles s) (st_docs s) (st_items s)
       (st_messages s) (st_next_id s) (st_pushed s) (st_mailed s).

(** [const updates = { ...body }] with [phone] and [email] replaced. *)
Definition apply_patch (p : customer_patch) (c : customer) : customer :=
  mkCustomer (cust_id c) (cust_user_id c)
    (default (cust_name c) (cp_name p))
    (default (cust_phone c) (customer_update_phone (cp_phone p)))
    (default (cust_email c) (customer_update_email (cp_email p))).

Section Customers.
(** Whether the database call of the handler reports an error. *)
Variable db_error : bool.
(** The id the database gives a new row. *)
Variable new_id : string.

(** [create]: [!body?.name?.trim()] rejects; the row gets the trimmed name
    and the [phoneForStorage]/[emailForStorage] values. *)
Definition customer_create (uid : string) (name phone email : option string) : M customer :=
  if negb (truthy (option_map trim_s name)) then throw (BadRequest "Name is required") else
  if db_error then throw (BadRequest "customer insert failed") else
  let c := mkCustomer new_id uid (option_map trim_s name)
             (customer_create_phone phone) (customer_create_email email) in
  s <- get_st ;;
  put_st (set_customers (st_customers s ++ [c]) s) ;;;
  ret c.

(** [get]: [.eq('id', id).eq('user_id', uid).single()]; the error becomes a
    [NotFoundException]. *)
Definition customer_get (uid id : string) : M customer :=
  if db_error then throw (NotFound "customer select failed") else
  s <- get_st ;;
  match customer_row s id uid with
  | Some c => ret c
  | None => throw (NotFound "JSON object requested, multiple (or no) rows returned")
  end.

(** [update]: [.update(updates).eq('id', id).eq('user_id', uid).select()
    .single()]; a request that does not hit exactly one row is refused. *)
Definition customer_update (uid id : string) (p : customer_patch) : M customer :=
  s <- get_st ;;
  let owned c := String.eqb (cust_id c) id && String.eqb (cust_user_id c) uid in
  match single (List.filter owned (st_customers s)) with
  | None => throw (BadRequest "JSON object requested, multiple (or no) rows returned")
  | Some c =>
      if db_error then throw (BadRequest "customer update failed") else
      put_st (set_customers
                (map (fun x => if owned x then apply_patch p x else x) (st_customers s)) s) ;;;
      ret (apply_patch p c)
  end.

(** [delete]: [.delete().eq('id', id).eq('user_id', uid)], then
    [{ success: true }]. *)
Definition customer_delete (uid id : string) : M bool :=
  if db_error then throw (BadRequest "customer delete failed") else
  s <- get_st ;;
  put_st (set_customers (List.filter
            (fun c => negb (String.eqb (cust_id c) id && String.eqb (cust_user_id c) uid))
            (st_customers s)) s) ;;;
  ret true.

End Customers.
End Customers.

(* ------------------------------------------------------------------ *)
(** ** invoices.controller.ts (the version resolving recipients): [list] *)

Module InvoiceList.
Import Db Like View.

(** [Map.prototype.set] on an association list: a new key goes last, an
    existing key keeps its place and takes the new value. *)
Fixpoint map_set {K V} (eqk : K -> K -> bool) (k : K) (v : V) (m : list (K * V))
    : list (K * V) :=
  match m with
  | [] => [(k, v)]
  | (k', v') :: r => if eqk k' k then (k, v) :: r else (k', v') :: map_set eqk k v r
  end.

Definition set_all {V} (xs : list (nat * V)) (m : list (nat * V)) : list (nat * V) :=
  fold_left (fun acc kv => map_set Nat.eqb kv.1 kv.2 acc) xs m.

Section InvoiceList.
(** [.order('created_at', ...)] and the final [.sort(...)] by [created_at]:
    the rows carry no creation time here, so the final sort is any
    permutation. *)
Variable sort_by_created_at : list document -> list document.
Hypothesis sort_perm : forall l, Permutation (sort_by_created_at l) l.
(** Whether the query of the sent invoices reports an error. *)
Variable sent_error : bool.
(** Whether the profile query, the received-by-phone query and the
    received-by-e-mail query report an error: the handler reads only their
    [data], which is then [null] ([profile] is [null], [byPhone ?? []]). *)
Variable profile_error : bool.
Variable phone_error : bool.
Variable email_error : bool.

Definition invoice_list (u : auth_user) (s : st) : outcome (list document) :=
  if sent_error then Exn (BadRequest "invoices select failed") else
  let uid := au_id u in
  let sent := List.filter (fun d => String.eqb (doc_user_id d) uid) (st_docs s) in
  let profile := if profile_error then None else find_profile s uid in
  let '(myPhone, myEmail) := invoice_list_identity profile u in
  let received_rows (err : bool) (col : document -> option string) (v : string) :=
    if err then [] else
    map (fun d => (doc_id d, with_type d "received"))
      (List.filter (fun d => negb (String.eqb (doc_user_id d) uid) && eq_filter v (col d))
         (st_docs s)) in
  let m1 := if truthy (Some myPhone)
            then set_all (received_rows phone_error doc_recipient_phone myPhone) []
            else [] in
  let m2 := if truthy (Some myEmail)
            then set_all (received_rows email_error doc_recipient_email myEmail) m1
            else m1 in
  Ok (sort_by_created_at (sent ++ map snd m2)).

End InvoiceList.
End InvoiceList.

(* ------------------------------------------------------------------ *)
(** ** Operands a LIKE pattern reads literally *)

Module LikeOperand.
Import Js.



End LikeOperand.

(* ------------------------------------------------------------------ *)
(** ** Auxiliary notions used to state properties of the code *)

Module SpecHelpers.
Import Js Db.

(** The first character [drop_spaces] leaves is not a space. *)
Definition starts_solid (l : list ascii) : Prop :=
  match l with c :: _ => is_space c = false | [] => True end.

(** A character the [.] of a JavaScript regular expression matches. *)
Definition not_line_terminator (c : ascii) : bool :=
  negb (Ascii.eqb c "010"%char || Ascii.eqb c "013"%char).

(** The messages of the chunks numbered from [i] whose sending succeeds. *)
Definition delivered (E : env) (i : nat) (cs : list (list push_message))
    : list push_message :=
  concat (map snd (List.filter (fun ic => negb (env_push_chunk_fails E ic.1))
                     (combine (seq i (length cs)) cs))).

End SpecHelpers.

(* ------------------------------------------------------------------ *)
(** ** Concrete requests and stores used by the checks below *)

Module Fixtures.
Import Db Create View.

(** Every external call succeeds, no RPC, SMTP not configured. *)
Definition env_all_ok : env :=
  mkEnv false false (fun _ => false) None true (fun _ => false) false false.

(** As [env_all_ok], but loading the Expo SDK fails. *)
Definition env_push_unavailable : env :=
  mkEnv false false (fun _ => false) None false (fun _ => false) false false.

(** User [u1] (Alice) owns customer [c1] (Bob, phone "+91 98765 43210");
    [u2] (Bob) has registered with phone "9876543210"; both have a push
    token. *)
Definition store0 : st :=
  mkSt [mkCustomer "c1" "u1" (Some "Bob") (Some "+91 98765 43210") None]
       [mkProfile "u1" (Some "Alice") None None (Some "ExponentPushToken[alice]");
        mkProfile "u2" (Some "Bob") (Some "9876543210") None (Some "ExponentPushToken[bob]")]
       [] [] [] 0 [] [].

Definition body_for_c1 (number : string) (type : option string) : create_body :=
  mkBody (Some "c1") (Some number) None type None None None
    [mkItemDto (Some "Design") (Some 2) (Some 100) None].

(** An invoice body with no customer and no recipient. *)
Definition body_no_recipient : create_body :=
  mkBody None (Some "INV-1") None None None None None [].

(** Quotation 1 of [u1], addressed to phone "9876543210" (the phone of
    [u2]'s profile). *)
Definition doc_q1 : document :=
  mkDocument 1 "u1" (Some "c1") (Some "9876543210") None "Q-1" "draft" "sent".

Definition store1 : st :=
  mkSt (st_customers store0) (st_profiles store0) [doc_q1] [] [] 1 [] [].

(** A caller [u3] whose profile row still holds an old phone while the
    token's metadata carries the current one, and an invoice of [u1]
    addressed to the current phone. *)
Definition doc_c4 : document :=
  mkDocument 1 "u1" None (Some "2222222222") None "INV-1" "draft" "sent".

Definition store_c4 : st :=
  mkSt [] [mkProfile "u3" None (Some "1111111111") None None] [doc_c4] [] [] 1 [] [].

Definition caller_c4 : auth_user :=
  mkAuthUser "u3" None None (Some "2222222222") None.

(** A caller known only by id. *)
Definition caller (id : string) : auth_user := mkAuthUser id None None None None.


End Fixtures.

(* ================================================================== *)
(** * Proofs *)
(* ================================================================== *)

Module NormalizerFacts.
Import Js RecipientUtil.

Lemma chars_of_chars (l : list ascii) : chars (of_chars l) = l.
Proof. apply list_ascii_of_string_of_list_ascii. Qed.

Lemma only_digits_digits (l : list ascii) :
  forallb is_digit (only_digits l) = true.
Proof.
  unfold only_digits. induction l as [|c l IH]; simpl; [done|].
  destruct (is_digit c) eqn:E; simpl; rewrite ?E; done.
Qed.

Lemma forallb_skipn {A} (f : A -> bool) n (l : list A) :
  forallb f l = true -> forallb f (skipn n l) = true.
Proof.
  revert l; induction n as [|n IH]; intros [|x l] H; simpl in *; try done.
  apply andb_true_iff in H as [_ H]. by apply IH.
Qed.

Lemma slice_last_length n (l : list ascii) :
  length (slice_last n l) = Nat.min n (length l).
Proof. unfold slice_last. rewrite length_skipn. lia. Qed.

Lemma split_at_at_app (a d : list ascii) :
  forallb email_atom a = true -> split_at_at (a ++ "@"%char :: d) = Some (a, d).
Proof.
  induction a as [|c a IH]; intros H; simpl; [done|].
  apply andb_true_iff in H as [Hc Ha].
  unfold email_atom in Hc. apply andb_true_iff in Hc as [_ Hc].
  apply negb_true_iff in Hc. rewrite Hc, IH; done.
Qed.

Lemma split_at_at_inv (l a d : list ascii) :
  split_at_at l = Some (a, d) -> l = a ++ "@"%char :: d.
Proof.
  revert a d; induction l as [|c l IH]; intros a d H; simpl in H; [done|].
  destruct (Ascii.eqb c "@"%char) eqn:E.
  - apply Ascii.eqb_eq in E. injection H as <- <-. by subst.
  - destruct (split_at_at l) as [[a' d']|] eqn:Hs; [|done].
    injection H as <- <-. simpl. f_equal. by apply IH.
Qed.

Lemma inner_dot_spec (r : list ascii) :
  inner_dot r = true <->
  exists r1 r2, r = r1 ++ "."%char :: r2 /\ r2 <> [].
Proof.
  induction r as [|c r IH]; simpl.
  - split; [done|]. intros (r1 & r2 & H & _). by destruct r1.
  - destruct r as [|c' r'].
    + split; [done|]. intros (r1 & r2 & H & Hr2).
      destruct r1 as [|x [|y r1]]; simpl in H; injection H; intros; subst; done.
    + rewrite orb_true_iff, IH, Ascii.eqb_eq. split.
      * intros [->|(r1 & r2 & H & Hr2)].
        -- exists [], (c' :: r'). done.
        -- exists (c :: r1), r2. rewrite H. done.
      * intros (r1 & r2 & H & Hr2). destruct r1 as [|x r1].
        -- injection H as -> _. by left.
        -- injection H as -> H. right. by exists r1, r2.
Qed.

Lemma email_regex_test_spec (l : list ascii) :
  email_regex_test l = true <-> email_regex l.
Proof.
  unfold email_regex_test, email_regex. split.
  - destruct (split_at_at l) as [[a d]|] eqn:Hs; [|done].
    apply split_at_at_inv in Hs as ->.
    intros H. apply andb_true_iff in H as [H Hdot].
    apply andb_true_iff in H as [H Fd]. apply andb_true_iff in H as [Hne Fa].
    destruct d as [|x r]; [done|]. simpl in Hdot.
    apply inner_dot_spec in Hdot as (r1 & r2 & -> & Hr2).
    exists a, (x :: r1), r2.
    simpl in Fd. rewrite forallb_app in Fd. simpl in Fd.
    apply andb_true_iff in Fd as [Hx Fd]. apply andb_true_iff in Fd as [Hr1 Fc].
    repeat split; try done.
    + intros ->. done.
    + simpl. by rewrite Hx, Hr1.
  - intros (a & b & c & -> & Ha & Hb & Hc & Fa & Fb & Fc).
    replace (a ++ ["@"%char] ++ b ++ ["."%char] ++ c)
      with (a ++ "@"%char :: (b ++ "."%char :: c)) by done.
    rewrite split_at_at_app by done.
    rewrite Fa, forallb_app. simpl. rewrite Fb, Fc. simpl.
    destruct a; [done|]. simpl.
    destruct b as [|x b]; [done|]. simpl.
    apply inner_dot_spec. exists b, c. done.
Qed.

Lemma normalizePhone_chars (p : option string) :
  chars (normalizePhone p) = slice_last 10 (only_digits (chars (default "" p))).
Proof.
  destruct p as [s|]; simpl; [|done].
  destruct (String.eqb_spec s "") as [->|_]; [done|].
  apply chars_of_chars.
Qed.

Lemma normalizeEmail_some (raw : string) :
  normalizeEmail (Some raw) = of_chars (trim (to_lower (chars raw))).
Proof.
  simpl. by destruct (String.eqb_spec raw "") as [->|_].
Qed.

Lemma email_regex_nonempty (l : list ascii) : email_regex l -> l <> [].
Proof. intros (a & b & c & -> & Ha & _). by destruct a. Qed.

Lemma of_chars_empty (l : list ascii) : of_chars l = ""%string -> l = [].
Proof. intros H. rewrite <- (chars_of_chars l), H. done. Qed.

Lemma emailForStorage_some (raw : string) :
  emailForStorage (Some raw) =
  if email_regex_test (trim (to_lower (chars raw)))
  then Some (of_chars (trim (to_lower (chars raw)))) else None.
Proof.
  unfold emailForStorage. rewrite normalizeEmail_some, chars_of_chars.
  destruct (email_regex_test _) eqn:E; simpl; rewrite ?orb_true_r; [|done].
  destruct (String.eqb_spec (of_chars (trim (to_lower (chars raw)))) "")
    as [H|_]; [|done].
  apply of_chars_empty in H. apply email_regex_test_spec in E.
  by apply email_regex_nonempty in E.
Qed.

End NormalizerFacts.

Module NormalizerClaims.
Import Js RecipientUtil NormalizerFacts.

(** Claim C7 (counterexample): [normalizePhone("12345")] is ["12345"]: when
    fewer than 10 digits are present the result is neither of length 10
    nor empty. *)
Lemma normalizePhone_short_input :
  normalizePhone (Some "12345") = "12345"%string /\
  ~ (String.length (normalizePhone (Some "12345")) = 10 \/
     normalizePhone (Some "12345") = ""%string).
Proof. vm_compute. split; [done|]. intros [H|H]; discriminate. Qed.

(** Claim C7 (amended): [normalizePhone] returns the last [min 10 n] of the
    [n] digits of its input (so only digits, of length 10 exactly when at
    least 10 digits are present, and empty for a null or digit-free input);
    [phoneForStorage] returns null when fewer than 10 digits remain and
    otherwise the last 10 digits, which is then what [normalizePhone]
    returns; [phoneForStorage("+91 98765-43210") = "9876543210"] and
    [phoneForStorage("12345") = null]. *)
Theorem phone_normalizers_spec :
  (forall p : option string,
     let d := only_digits (chars (default "" p)) in
     chars (normalizePhone p) = slice_last 10 d /\
     forallb is_digit (chars (normalizePhone p)) = true /\
     length (chars (normalizePhone p)) = Nat.min 10 (length d)) /\
  (forall p : option string,
     phoneForStorage p = None <-> length (only_digits (chars (default "" p))) < 10) /\
  (forall (p : option string) (s : string), phoneForStorage p = Some s ->
     forallb is_digit (chars s) = true /\ length (chars s) = 10 /\
     normalizePhone p = s) /\
  phoneForStorage (Some "+91 98765-43210") = Some "9876543210"%string /\
  phoneForStorage (Some "12345") = None.
Proof.
  split; [|split; [|split; [|split]]].
  - intros p d. rewrite normalizePhone_chars. split; [done|]. split.
    + apply forallb_skipn, only_digits_digits.
    + apply slice_last_length.
  - intros p. unfold phoneForStorage.
    destruct (Nat.ltb_spec (length (only_digits (chars (default "" p)))) 10);
      split; intros; done || lia.
  - intros p s. unfold phoneForStorage.
    destruct (Nat.ltb_spec (length (only_digits (chars (default "" p)))) 10)
      as [_|Hge]; [done|].
    intros [= <-]. rewrite chars_of_chars. split; [|split].
    + apply forallb_skipn, only_digits_digits.
    + rewrite slice_last_length. lia.
    + rewrite <- (string_of_list_ascii_of_string (normalizePhone p)).
      change (of_chars (chars (normalizePhone p)) =
              of_chars (slice_last 10 (only_digits (chars (default "" p))))).
      by rewrite normalizePhone_chars.
  - vm_compute. done.
  - done.
Qed.

(** Witness of [phone_normalizers_spec] at ["+91 98765-43210"]. *)
Lemma phone_normalizers_spec_witness :
  phoneForStorage (Some "+91 98765-43210") = Some "9876543210"%string /\
  normalizePhone (Some "+91 98765-43210") = "9876543210"%string.
Proof.
  assert (H : phoneForStorage (Some "+91 98765-43210") = Some "9876543210"%string)
    by (vm_compute; reflexivity).
  split; [exact H|].
  exact (proj2 (proj2 (proj1 (proj2 (proj2 phone_normalizers_spec)) _ _ H))).
Defined.

(** Claim C8: [emailForStorage] returns the lower-cased, trimmed input when
    it matches [/^[^\s@]+@[^\s@]+\.[^\s@]+$/] (non-space-non-@ runs around
    an ['@'] and a ['.']) and null otherwise;
    [emailForStorage(" User@Example.COM ") = "user@example.com"] and
    [emailForStorage("not-an-email") = null]. *)
Theorem emailForStorage_spec :
  (forall raw : string,
     let e := trim (to_lower (chars raw)) in
     (email_regex e -> emailForStorage (Some raw) = Some (of_chars e)) /\
     (~ email_regex e -> emailForStorage (Some raw) = None)) /\
  emailForStorage None = None /\
  emailForStorage (Some " User@Example.COM ") = Some "user@example.com"%string /\
  emailForStorage (Some "not-an-email") = None.
Proof.
  split; [|split; [done|split; vm_compute; done]].
  intros raw e. rewrite emailForStorage_some. fold e. split.
  - intros H. apply email_regex_test_spec in H. by rewrite H.
  - intros H. destruct (email_regex_test e) eqn:E; [|done].
    by apply email_regex_test_spec in E.
Qed.

(** Witness of [emailForStorage_spec] at [" User@Example.COM "]. *)
Lemma emailForStorage_spec_witness :
  email_regex (trim (to_lower (chars " User@Example.COM "))) /\
  emailForStorage (Some " User@Example.COM ") =
    Some (of_chars (trim (to_lower (chars " User@Example.COM ")))).
Proof.
  assert (H : email_regex (trim (to_lower (chars " User@Example.COM ")))).
  { apply email_regex_test_spec. vm_compute. reflexivity. }
  split; [exact H|].
  exact (proj1 (proj1 emailForStorage_spec " User@Example.COM ") H).
Defined.

End NormalizerClaims.

(* ------------------------------------------------------------------ *)
(** ** Reasoning about request handlers *)

Module HandlerFacts.
Import Js RecipientUtil Db Channels Create.

(** A step that leaves the [documents] table as it found it. *)
Definition keeps_docs {A} (m : M A) : Prop :=
  forall s, st_docs (snd (m s)) = st_docs s.

(** A step that never ends in a thrown exception. *)
Definition no_throw {A} (m : M A) : Prop :=
  forall s, exists a s', m s = (Ok a, s').

Lemma bind_ok {A B} (m : M A) (k : A -> M B) s b s' :
  bind m k s = (Ok b, s') -> exists a s1, m s = (Ok a, s1) /\ k a s1 = (Ok b, s').
Proof.
  unfold bind. destruct (m s) as [[a|e] s1]; [|discriminate]. eauto.
Qed.

Lemma keeps_docs_run {A} (m : M A) s r s' :
  keeps_docs m -> m s = (r, s') -> st_docs s' = st_docs s.
Proof. intros Hm Hrun. specialize (Hm s). by rewrite Hrun in Hm. Qed.

Lemma keeps_ret {A} (a : A) : keeps_docs (ret a).
Proof. done. Qed.
Lemma keeps_throw {A} e : keeps_docs (A := A) (throw e).
Proof. done. Qed.
Lemma keeps_get : keeps_docs get_st.
Proof. done. Qed.

Lemma keeps_bind {A B} (m : M A) (k : A -> M B) :
  keeps_docs m -> (forall a, keeps_docs (k a)) -> keeps_docs (bind m k).
Proof.
  intros Hm Hk s. unfold bind. specialize (Hm s).
  destruct (m s) as [[a|e] s1]; simpl in *; [by rewrite Hk|done].
Qed.

Lemma keeps_try {A} (m : M A) (h : exn -> M A) :
  keeps_docs m -> (forall e, keeps_docs (h e)) -> keeps_docs (try_catch m h).
Proof.
  intros Hm Hh s. unfold try_catch. specialize (Hm s).
  destruct (m s) as [[a|e] s1]; simpl in *; [done|by rewrite Hh].
Qed.

Lemma keeps_insert_message E uid title : keeps_docs (insert_message E uid title).
Proof. intros s. unfold insert_message. by destruct (env_message_insert_fails E uid). Qed.

Lemma keeps_send_invoice_mail E to : keeps_docs (send_invoice_mail E to).
Proof.
  intros s. unfold send_invoice_mail.
  by destruct (env_smtp_configured E), (env_smtp_send_fails E).
Qed.

Lemma keeps_send_chunks E i cs : keeps_docs (send_chunks E i cs).
Proof.
  revert i; induction cs as [|c cs IH]; intros i; simpl; [apply keeps_ret|].
  apply keeps_bind; [|intros; apply IH].
  apply keeps_try; [|intros; apply keeps_ret].
  intros s. by destruct (env_push_chunk_fails E i).
Qed.

Lemma keeps_sendMany E rs : keeps_docs (sendMany E rs).
Proof.
  unfold sendMany. apply keeps_bind.
  - intros s. unfold push_getClient. by destruct (env_push_client_loads E).
  - intros _. destruct (Nat.eqb _ 0); [apply keeps_ret|].
    destruct (Nat.eqb _ 0); [apply keeps_ret|]. apply keeps_send_chunks.
Qed.

Lemma keeps_notify_all E uids title : keeps_docs (notify_all E uids title).
Proof.
  induction uids as [|u uids IH]; simpl; [apply keeps_ret|].
  apply keeps_bind; [|intros; apply IH].
  apply keeps_try; [apply keeps_insert_message|intros; apply keeps_ret].
Qed.

Lemma keeps_insert_items E docid its : keeps_docs (insert_items E docid its).
Proof.
  intros s. unfold insert_items.
  by destruct (Nat.eqb _ 0), (env_items_insert_error E).
Qed.

Lemma keeps_refetch d : keeps_docs (refetch d).
Proof. done. Qed.

Create HintDb keeps.
Global Hint Resolve keeps_ret keeps_throw keeps_get keeps_insert_message
  keeps_send_invoice_mail keeps_sendMany keeps_notify_all keeps_insert_items
  keeps_refetch : keeps.

Ltac keeps_tac :=
  repeat first
    [ progress (intros)
    | solve [eauto with keeps]
    | apply keeps_bind
    | apply keeps_try
    | match goal with
      | |- keeps_docs (if ?b then _ else _) => destruct b
      | |- keeps_docs (match ?x with _ => _ end) => destruct x
      end ].

(** A successful quotation creation appends exactly one row to the
    documents table: the payload built from the request. *)
Lemma quotation_create_row E uid b s d s' :
  quotation_create E uid b s = (Ok d, s') ->
  exists row,
    st_docs s' = st_docs s ++ [row] /\
    doc_user_id row = uid /\
    doc_type row = default "sent" (js_or (b_type b) None) /\
    (doc_recipient_phone row, doc_recipient_email row) =
      quotation_recipient
        (match b_customer_id b with
         | Some cid => if truthy (Some cid) then customer_row s cid uid else None
         | None => None
         end) b.
Proof.
  unfold quotation_create. destruct (number_missing b); [discriminate|].
  intros H. apply bind_ok in H as (cust & s1 & Hc & H).
  assert (Hcs : s1 = s /\ cust = match b_customer_id b with
                 | Some cid => if truthy (Some cid) then customer_row s cid uid else None
                 | None => None end).
  { destruct (b_customer_id b) as [cid|]; [destruct (truthy (Some cid))|];
      by injection Hc as <- <-. }
  destruct Hcs as [-> ->].
  match goal with
  | H : (let '(_, _) := quotation_recipient ?c b in _) _ = _ |- _ =>
      destruct (quotation_recipient c b) as [rp re] eqn:Hr
  end.
  destruct (negb (truthy rp) && negb (truthy re)); [discriminate|].
  apply bind_ok in H as (q & s2 & Hq & H).
  unfold insert_document in Hq. destruct (env_doc_insert_error E); [discriminate|].
  simpl in Hq. injection Hq as <- <-.
  eapply keeps_docs_run in H; [|keeps_tac]. simpl in H.
  eexists. split; [exact H|split; [done|split; done]].
Qed.

Lemma invoice_recipient_run uid b s r s' :
  invoice_recipient uid b s = (Ok r, s') -> s' = s.
Proof.
  unfold invoice_recipient.
  destruct (b_customer_id b) as [cid|]; [|by intros [= _ <-]].
  destruct (truthy (Some cid)); [|by intros [= _ <-]].
  unfold bind, lookup_customer, bind, get_st, ret. simpl.
  destruct (customer_row s cid uid) as [c|]; [|by intros [= _ <-]].
  destruct (_ && _); [discriminate|]. by intros [= _ <-].
Qed.

(** The same for invoice creation. *)
Lemma invoice_create_row E uid b s d s' :
  invoice_create E uid b s = (Ok d, s') ->
  exists row,
    st_docs s' = st_docs s ++ [row] /\
    doc_user_id row = uid /\
    doc_type row = default "sent" (js_or (b_type b) None).
Proof.
  unfold invoice_create. destruct (number_missing b); [discriminate|].
  intros H. apply bind_ok in H as ([rp re] & s1 & Hc & H).
  apply invoice_recipient_run in Hc as ->.
  apply bind_ok in H as (q & s2 & Hq & H).
  unfold insert_document in Hq. destruct (env_doc_insert_error E); [discriminate|].
  simpl in Hq. injection Hq as <- <-.
  eapply keeps_docs_run in H; [|keeps_tac]. simpl in H.
  eexists. split; [exact H|split; done].
Qed.

(** Quotation creation rejects a request whose resolved recipient has
    neither phone nor e-mail, before any write. *)
Lemma quotation_create_rejects_unreachable E uid b s :
  number_missing b = false ->
  let cust := match b_customer_id b with
              | Some cid => if truthy (Some cid) then customer_row s cid uid else None
              | None => None
              end in
  truthy (fst (quotation_recipient cust b)) = false ->
  truthy (snd (quotation_recipient cust b)) = false ->
  exists msg, quotation_create E uid b s = (Exn (BadRequest msg), s).
Proof.
  intros Hn cust Hp He. unfold quotation_create. rewrite Hn.
  unfold bind at 1.
  assert (Hl : (match b_customer_id b with
                | Some cid => if truthy (Some cid) then lookup_customer cid uid else ret None
                | None => ret None end) s = (Ok cust, s)).
  { subst cust. destruct (b_customer_id b) as [cid|]; [destruct (truthy (Some cid))|]; done. }
  rewrite Hl. destruct (quotation_recipient cust b) as [rp re]. simpl in *.
  rewrite Hp, He. simpl. eexists. reflexivity.
Qed.

End HandlerFacts.

(* ------------------------------------------------------------------ *)
(** ** Claims on document creation *)

Module CreateClaims.
Import Db Channels Create View Fixtures HandlerFacts.

(** Claim C1 (code defect): an invoice create request without a customer
    (hence with no recipient phone and no recipient e-mail) is not rejected:
    the invoice row is written with both recipient fields null. The check
    exists only inside the branch where a customer row was found, whereas
    the quotation handler rejects such a request in every case
    ([quotation_create_rejects_unreachable]). *)
Theorem invoice_create_accepts_unreachable :
  exists d s',
    invoice_create env_all_ok "u1" body_no_recipient store0 = (Ok d, s') /\
    st_docs s' = [d] /\
    doc_recipient_phone d = None /\ doc_recipient_email d = None.
Proof. vm_compute. eexists _, _. split; [reflexivity|]. done. Qed.

(** Claim C5 (code defect): when the push client cannot be loaded, the
    rejection of [PushService.sendMany] is not caught by the quotation
    handler: the request fails although the quotation row and its line
    items were already written and the in-app messages inserted. *)
Theorem quotation_create_push_failure_escapes :
  exists e s',
    quotation_create env_push_unavailable "u1" (body_for_c1 "Q-1" None) store0
      = (Exn e, s') /\
    length (st_docs s') = 1 /\ length (st_items s') = 1 /\
    length (st_messages s') = 2.
Proof. vm_compute. eexists _, _. split; [reflexivity|]. done. Qed.

(** Claim C6 (counterexample): a create request whose body says
    [type: 'received'] persists a quotation row of type ['received']. *)
Lemma quotation_create_persists_received :
  exists d s',
    quotation_create env_all_ok "u1" (body_for_c1 "Q-2" (Some "received")) store0
      = (Ok d, s') /\
    st_docs s' = [d] /\ doc_type d = "received"%string.
Proof. vm_compute. eexists _, _. split; [reflexivity|]. done. Qed.

(** Claim C6 (amended): creation persists the body's [type] when it is a
    non-empty string and ['sent'] otherwise; [PATCH /invoices/:id] persists
    the [type] its body carries on the caller's invoice with that id, and
    keeps the stored type when the body has none; get-by-id, for quotations
    and for invoices, answers a matched non-owner with a copy of the stored
    row tagged ['received'] (a read, with no write). *)
Theorem document_type_persistence :
  (forall E uid b s d s', quotation_create E uid b s = (Ok d, s') ->
     exists row, st_docs s' = st_docs s ++ [row] /\
                 doc_type row = default "sent" (js_or (b_type b) None)) /\
  (forall E uid b s d s', invoice_create E uid b s = (Ok d, s') ->
     exists row, st_docs s' = st_docs s ++ [row] /\
                 doc_type row = default "sent" (js_or (b_type b) None)) /\
  (forall uid id ub s d s', invoice_update uid id ub s = (Ok d, s') ->
     In d (st_docs s') /\ doc_id d = id /\ doc_user_id d = uid /\
     exists d0, In d0 (st_docs s) /\ doc_id d0 = id /\ doc_user_id d0 = uid /\
       doc_type d = default (doc_type d0) (u_type ub)) /\
  (forall u id s d, quotation_get u id s = Ok d -> doc_user_id d <> au_id u ->
     exists q, find_doc s id = Some q /\ doc_user_id q <> au_id u /\
               d = with_type q "received") /\
  (forall u id s d, invoice_get u id s = Ok d -> doc_user_id d <> au_id u ->
     exists q, find_doc s id = Some q /\ doc_user_id q <> au_id u /\
               d = with_type q "received").
Proof.
  split; [|split; [|split; [|split]]].
  - intros E uid b s d s' H.
    destruct (quotation_create_row E uid b s d s' H) as (row & H1 & _ & H2 & _).
    eauto.
  - intros E uid b s d s' H.
    destruct (invoice_create_row E uid b s d s' H) as (row & H1 & _ & H2). eauto.
  - intros uid id ub s d s'. unfold invoice_update, bind, get_st.
    destruct (single _) as [d0|] eqn:Hs; [|discriminate].
    simpl. intros [= <- <-]. simpl.
    assert (Hin : In d0 (List.filter (fun d => Nat.eqb (doc_id d) id &&
                    String.eqb (doc_user_id d) uid) (st_docs s))).
    { destruct (List.filter _ _) as [|x [|]]; simpl in Hs; try discriminate.
      injection Hs as ->. by left. }
    apply filter_In in Hin as [Hin Hown].
    pose proof Hown as Hown'.
    apply andb_true_iff in Hown' as [Hi Hu].
    apply Nat.eqb_eq in Hi. apply String.eqb_eq in Hu.
    split; [|split; [done|split; [done|]]].
    + apply in_map_iff. exists d0. by rewrite Hown.
    + exists d0. done.
  - intros u id s d. unfold quotation_get.
    destruct (find_doc s id) as [q|]; [|discriminate].
    destruct (String.eqb_spec (doc_user_id q) (au_id u)) as [Heq|Hne].
    + intros [= <-] Hne. done.
    + destruct (_ || _); [|discriminate]. intros [= <-] _. eauto.
  - intros u id s d. unfold invoice_get.
    destruct (find_doc s id) as [q|]; [|discriminate].
    destruct (String.eqb_spec (doc_user_id q) (au_id u)) as [Heq|Hne].
    + intros [= <-] Hne. done.
    + destruct (_ || _); [|discriminate]. intros [= <-] _. eauto.
Qed.

(** Witness of [document_type_persistence] at the quotation of [u1] for
    customer [c1]. *)
Lemma document_type_persistence_witness :
  exists row,
    st_docs (snd (quotation_create env_all_ok "u1" (body_for_c1 "Q-3" None) store0))
      = [] ++ [row] /\ doc_type row = "sent"%string.
Proof.
  destruct (quotation_create env_all_ok "u1" (body_for_c1 "Q-3" None) store0)
    as [r s'] eqn:H.
  destruct r as [d|e]; [|vm_compute in H; discriminate].
  destruct (proj1 document_type_persistence _ _ _ _ _ _ H) as (row & H1 & H2).
  exists row. split; [exact H1|exact H2].
Defined.

End CreateClaims.

(* ------------------------------------------------------------------ *)
(** ** Claims on reading documents *)

Module ViewClaims.
Import Js RecipientUtil Db Create View Fixtures.

Lemma truthy_some (x : string) : truthy (Some x) = negb (String.eqb x "").
Proof. reflexivity. Qed.

Lemma is_recipient_spec (a b c d : string) :
  ((negb (String.eqb a "") && negb (String.eqb b "") && String.eqb a b) ||
   (negb (String.eqb c "") && negb (String.eqb d "") && String.eqb c d)) = true <->
  ((a <> "" /\ a = b) \/ (c <> "" /\ c = d)).
Proof.
  destruct (String.eqb_spec a ""), (String.eqb_spec b ""), (String.eqb_spec a b),
    (String.eqb_spec c ""), (String.eqb_spec d ""), (String.eqb_spec c d);
    subst; simpl; split; intuition congruence.
Qed.

Lemma default_nullish_empty (o : option string) :
  default "" (js_nullish o (Some "")) = default "" o.
Proof. by destruct o. Qed.

(** Claim C3: on get-by-id, a missing document and a document the caller
    neither owns nor is a recipient of give the same not-found error; a
    non-owner whose canonical phone (non-empty) equals the normalized
    recipient phone, or whose canonical e-mail (non-empty) equals the
    normalized recipient e-mail, gets the stored row with type
    ['received']. The caller's phone is the profile phone, else the
    metadata phone; the e-mail is the profile e-mail, else the auth e-mail;
    e-mails are compared lowercased and trimmed. *)
Theorem get_by_id_non_owner :
  (forall u id s, find_doc s id = None ->
     quotation_get u id s = Exn (NotFound "Quotation not found") /\
     invoice_get u id s = Exn (NotFound "Invoice not found")) /\
  (forall u id s q, find_doc s id = Some q -> doc_user_id q <> au_id u ->
     let profile := find_profile s (au_id u) in
     let myPhone := normalizePhone (js_nullish (profile_phone profile) (au_meta_phone u)) in
     let myEmail := normalizeEmail
       (js_nullish (profile_email profile) (js_nullish (au_email u) (Some ""))) in
     let matched :=
       (myPhone <> "" /\ myPhone = normalizePhone (doc_recipient_phone q)) \/
       (myEmail <> "" /\ myEmail = normalizeEmail (doc_recipient_email q)) in
     (matched -> quotation_get u id s = Ok (with_type q "received")) /\
     (~ matched -> quotation_get u id s = Exn (NotFound "Quotation not found"))) /\
  (forall u id s q, find_doc s id = Some q -> doc_user_id q <> au_id u ->
     let profile := find_profile s (au_id u) in
     let myPhone := normalizePhone (js_nullish (profile_phone profile) (au_meta_phone u)) in
     let myEmail := lower_trim_s
       (default "" (js_nullish (profile_email profile) (js_nullish (au_email u) (Some "")))) in
     let matched :=
       (myPhone <> "" /\ myPhone = normalizePhone (doc_recipient_phone q)) \/
       (myEmail <> "" /\ myEmail = lower_trim_s (default "" (doc_recipient_email q))) in
     (matched -> invoice_get u id s = Ok (with_type q "received")) /\
     (~ matched -> invoice_get u id s = Exn (NotFound "Invoice not found"))).
Proof.
  split; [|split].
  - intros u id s H. unfold quotation_get, invoice_get. by rewrite H.
  - intros u id s q Hq Hne. cbv zeta. unfold quotation_get. rewrite Hq.
    destruct (String.eqb_spec (doc_user_id q) (au_id u)) as [E|_]; [contradiction|].
    rewrite !truthy_some.
    match goal with |- (?P -> ?X = _) /\ _ =>
      match X with context [if ?c then _ else _] =>
        pose proof (is_recipient_spec _ _ _ _ : c = true <-> P) as Hc;
        destruct c; split; intros Hm
      end end; try reflexivity.
    + exfalso. apply Hm, Hc. reflexivity.
    + apply Hc in Hm. discriminate.
  - intros u id s q Hq Hne. cbv zeta. unfold invoice_get. rewrite Hq.
    destruct (String.eqb_spec (doc_user_id q) (au_id u)) as [E|_]; [contradiction|].
    rewrite !truthy_some, default_nullish_empty.
    match goal with |- (?P -> ?X = _) /\ _ =>
      match X with context [if ?c then _ else _] =>
        pose proof (is_recipient_spec _ _ _ _ : c = true <-> P) as Hc;
        destruct c; split; intros Hm
      end end; try reflexivity.
    + exfalso. apply Hm, Hc. reflexivity.
    + apply Hc in Hm. discriminate.
Qed.

(** Witness of [get_by_id_non_owner]: [u2], whose profile phone is the
    recipient phone of quotation 1, reads it as ['received']. *)
Lemma get_by_id_non_owner_witness :
  quotation_get (caller "u2") 1 store1 = Ok (with_type doc_q1 "received").
Proof.
  destruct get_by_id_non_owner as [_ [Hq _]].
  apply (Hq (caller "u2") 1 store1 doc_q1); [reflexivity|discriminate|].
  vm_compute. left. split; [discriminate|reflexivity].
Defined.

End ViewClaims.


(* ------------------------------------------------------------------ *)
(** ** Claims on the caller identity of the list endpoints *)

Module ListClaims.
Import Js RecipientUtil Db Create View InvoiceList Fixtures.

Lemma js_or_t (a b : option string) : truthy a = true -> js_or a b = a.
Proof. unfold js_or. by intros ->. Qed.

Lemma js_or_f (a b : option string) : truthy a = false -> js_or a b = b.
Proof. unfold js_or. by intros ->. Qed.

Lemma js_or_nullish_f (a b d : option string) :
  truthy a = false -> js_or (js_nullish a b) (js_or b d) = js_or b d.
Proof.
  destruct a as [a|]; simpl; intros Ha.
  - by rewrite js_or_f.
  - unfold js_or. by destruct (truthy b).
Qed.

Lemma normalizePhone_falsy (o : option string) : truthy o = false -> normalizePhone o = "".
Proof.
  destruct o as [x|]; [|done]. simpl. unfold normalizePhone.
  destruct (String.eqb x ""); done.
Qed.

Lemma normalizeEmail_falsy (o : option string) : truthy o = false -> normalizeEmail o = "".
Proof.
  destruct o as [x|]; [|done]. simpl. unfold normalizeEmail.
  destruct (String.eqb x ""); done.
Qed.

Lemma normalizePhone_or_empty (o : option string) :
  normalizePhone (js_or o (Some "")) = normalizePhone o.
Proof.
  destruct (truthy o) eqn:H; [by rewrite js_or_t|].
  rewrite js_or_f by done. by rewrite (normalizePhone_falsy o).
Qed.

Lemma normalizeEmail_or_empty (o : option string) :
  normalizeEmail (js_or o (Some "")) = normalizeEmail o.
Proof.
  destruct (truthy o) eqn:H; [by rewrite js_or_t|].
  rewrite js_or_f by done. by rewrite (normalizeEmail_falsy o).
Qed.

(** Claim C4 (code defect): the invoice list takes the caller's phone from
    the stored profile row before the auth metadata, against the order the
    quotation list follows (auth identity first, since the profile row can
    be stale). A caller whose profile still holds an old phone while the
    token carries the current one is matched by the quotation list on the
    current phone, but the invoice list looks for the old one and misses an
    invoice another user addressed to the current phone. *)
Theorem invoice_list_misses_stale_profile :
  fst (quotation_list_identity (find_profile store_c4 "u3") caller_c4) = "2222222222"%string /\
  fst (invoice_list_identity (find_profile store_c4 "u3") caller_c4) = "1111111111"%string /\
  invoice_list (fun l => l) false false false false caller_c4 store_c4 = Ok [] /\
  In doc_c4 (st_docs store_c4) /\ doc_recipient_phone doc_c4 = Some "2222222222"%string.
Proof. vm_compute. repeat split; left; reflexivity. Qed.

End ListClaims.

(* ------------------------------------------------------------------ *)
(** ** Claims on the phone and e-mail write paths *)

Module WriteClaims.
Import Js RecipientUtil Db Create WritePaths NormalizerFacts.

Lemma space_not_digit (c : ascii) : is_space c = true -> is_digit c = false.
Proof.
  unfold is_space, is_digit. set (n := nat_of_ascii c).
  destruct (Nat.leb_spec 9 n), (Nat.leb_spec n 13), (Nat.eqb_spec n 32),
    (Nat.leb_spec 48 n), (Nat.leb_spec n 57); simpl; try done; lia.
Qed.

Lemma only_digits_drop_spaces (l : list ascii) :
  only_digits (drop_spaces l) = only_digits l.
Proof.
  induction l as [|c l IH]; [done|]. simpl.
  destruct (is_space c) eqn:Hs; [|done].
  unfold only_digits in *. simpl. by rewrite space_not_digit.
Qed.

Lemma only_digits_rev (l : list ascii) : only_digits (rev l) = rev (only_digits l).
Proof.
  induction l as [|c l IH]; [done|]. unfold only_digits in *. simpl.
  rewrite List.filter_app, IH. simpl. by destruct (is_digit c); rewrite ?app_nil_r.
Qed.

Lemma only_digits_trim (l : list ascii) : only_digits (trim l) = only_digits l.
Proof.
  unfold trim.
  by rewrite only_digits_rev, only_digits_drop_spaces, only_digits_rev, rev_involutive,
    only_digits_drop_spaces.
Qed.

Lemma emailForStorage_nonempty (v : option string) (e : string) :
  emailForStorage v = Some e -> truthy (Some e) = true.
Proof.
  destruct v as [raw|]; [|done].
  rewrite emailForStorage_some.
  destruct (email_regex_test _) eqn:E; [|done]. intros [= <-].
  simpl. destruct (String.eqb_spec (of_chars (trim (to_lower (chars raw)))) "") as [H|_];
    [|done].
  apply of_chars_empty in H. apply email_regex_test_spec in E.
  by apply email_regex_nonempty in E.
Qed.

(** Claim C9 (counterexample): [PATCH /customers/:id] with
    [email: 'not-an-email'] stores ['not-an-email'], and [PATCH /profiles/me]
    with [email: ' User@Example.COM '] stores ['User@Example.COM']. *)
Lemma raw_emails_stored :
  customer_update_email (Some (Some "not-an-email")) = Some (Some "not-an-email"%string) /\
  profile_update_email (Some (Some " User@Example.COM ")) = Some (Some "User@Example.COM"%string).
Proof. vm_compute. split; reflexivity. Qed.

(** Claim C9 (amended): every phone written by profile update, customer
    create and customer update is [phoneForStorage] of the input (the last
    10 digits, or null below 10 digits); customer create stores
    [emailForStorage] of the e-mail (lowercased, trimmed and validated, or
    null); customer update stores [emailForStorage] of the e-mail when it is
    valid and otherwise the trimmed raw input (null when empty); profile
    update stores the trimmed raw e-mail (null when empty), neither
    lowercased nor validated. A field absent from a PATCH body is not
    written. *)
Theorem write_paths_storage :
  (forall v, profile_update_phone (Some v) = Some (phoneForStorage v)) /\
  (forall v, customer_create_phone v = phoneForStorage v) /\
  (forall v, customer_update_phone (Some v) = Some (phoneForStorage v)) /\
  (forall v, customer_create_email v = emailForStorage v) /\
  (forall v e, emailForStorage v = Some e -> customer_update_email (Some v) = Some (Some e)) /\
  (forall v, emailForStorage v = None ->
     customer_update_email (Some v) = profile_update_email (Some v)) /\
  (forall x, profile_update_email (Some (Some x)) =
     Some (if String.eqb (trim_s x) "" then None else Some (trim_s x))) /\
  profile_update_email (Some None) = Some None /\
  profile_update_phone None = None /\ profile_update_email None = None /\
  customer_update_phone None = None /\ customer_update_email None = None.
Proof.
  repeat split.
  - intros v. unfold profile_update_phone, phoneForStorage. f_equal.
    destruct v as [x|]; cbv beta iota zeta delta [default id].
    + rewrite only_digits_trim.
      destruct (Nat.ltb_spec (length (only_digits (chars x))) 10),
        (Nat.leb_spec 10 (length (only_digits (chars x)))); (done || lia).
    + done.
  - intros v. unfold customer_create_phone. by destruct (phoneForStorage v).
  - intros v. unfold customer_update_phone. by destruct (phoneForStorage v).
  - intros v. unfold customer_create_email. by destruct (emailForStorage v).
  - intros v e H. unfold customer_update_email. rewrite H.
    unfold js_or. by rewrite (emailForStorage_nonempty v e H).
  - intros v H. unfold customer_update_email, profile_update_email. by rewrite H.
  - intros x. unfold profile_update_email, js_or. simpl.
    by destruct (String.eqb (trim_s x) "").
Qed.

(** Witness of [write_paths_storage]: a valid e-mail given to
    [PATCH /customers/:id] is stored in canonical form. *)
Lemma write_paths_storage_witness :
  customer_update_email (Some (Some " User@Example.COM "))
    = Some (Some "user@example.com"%string).
Proof.
  destruct write_paths_storage as (_ & _ & _ & _ & H & _).
  apply H. vm_compute. reflexivity.
Defined.

End WriteClaims.

(* ------------------------------------------------------------------ *)
(** ** Claim on one-time-password verification *)

Module OtpClaims.
Import Js Create Otp.

Lemma key_changes_or_same {A} (m : gmap string A) (key k : string) :
  k = key \/ delete key m !! k = m !! k.
Proof.
  destruct (decide (k = key)) as [->|Hne]; [by left|].
  right. apply lookup_delete_ne. congruence.
Qed.

(** Claim C10: while the OTP of an e-mail is stored and unexpired
    ([now <= expiresAt]), a call of [verifyOtp] or [verifyOtpOnly] with a
    code whose trimmed value differs from it throws and leaves the whole
    state unchanged, so any number of such attempts followed by the right
    code within the expiry window succeeds; and a call changes the stored
    OTP entry of a key only by deleting the entry of the e-mail it was
    given, and only when that entry had expired or the call succeeded. *)
Theorem otp_wrong_code_keeps_store :
  (forall email code now tok s stored,
     otpStore s !! otp_key email = Some stored -> (now <= otp_expiresAt stored)%Z ->
     trim_s code <> otp_code stored ->
     verifyOtp email code now tok s = (Thrown "Invalid verification code.", s) /\
     verifyOtpOnly email code now s = (Thrown "Invalid verification code.", s)) /\
  (forall email s stored (attempts : list (string * Z)) code now tok,
     otpStore s !! otp_key email = Some stored ->
     Forall (fun a => (snd a <= otp_expiresAt stored)%Z /\ trim_s (fst a) <> otp_code stored)
       attempts ->
     (now <= otp_expiresAt stored)%Z -> trim_s code = otp_code stored ->
     fst (verifyOtp email code now tok
            (fold_left (fun st a => snd (verifyOtp email (fst a) (snd a) tok st)) attempts s))
       = Returned tok /\
     fst (verifyOtpOnly email code now
            (fold_left (fun st a => snd (verifyOtpOnly email (fst a) (snd a) st)) attempts s))
       = Returned tt) /\
  (forall email code now tok s r s' k, verifyOtp email code now tok s = (r, s') ->
     otpStore s' !! k = otpStore s !! k \/
     (k = otp_key email /\ otpStore s' !! k = None /\
      exists stored, otpStore s !! k = Some stored /\
                     ((otp_expiresAt stored < now)%Z \/ r = Returned tok))) /\
  (forall email code now s r s' k, verifyOtpOnly email code now s = (r, s') ->
     otpStore s' !! k = otpStore s !! k \/
     (k = otp_key email /\ otpStore s' !! k = None /\
      exists stored, otpStore s !! k = Some stored /\
                     ((otp_expiresAt stored < now)%Z \/ r = Returned tt))).
Proof.
  assert (Hwrong : forall email code now tok s stored,
     otpStore s !! otp_key email = Some stored -> (now <= otp_expiresAt stored)%Z ->
     trim_s code <> otp_code stored ->
     verifyOtp email code now tok s = (Thrown "Invalid verification code.", s) /\
     verifyOtpOnly email code now s = (Thrown "Invalid verification code.", s)).
  { intros email code now tok s stored Hs Hnow Hc.
    unfold verifyOtp, verifyOtpOnly. rewrite Hs.
    destruct (Z.ltb_spec (otp_expiresAt stored) now); [lia|].
    destruct (String.eqb_spec (otp_code stored) (trim_s code)); [congruence|].
    done. }
  split; [exact Hwrong|split; [|split]].
  - intros email s stored attempts code now tok Hs Ha Hnow Hc.
    assert (Hfold : fold_left (fun st a => snd (verifyOtp email (fst a) (snd a) tok st)) attempts s = s /\
                    fold_left (fun st a => snd (verifyOtpOnly email (fst a) (snd a) st)) attempts s = s).
    { induction Ha as [|[c t] rest [Ht Hct] _ IH]; [done|]. simpl in *.
      destruct (Hwrong email c t tok s stored Hs Ht Hct) as [-> ->]. exact IH. }
    destruct Hfold as [-> ->].
    unfold verifyOtp, verifyOtpOnly. rewrite Hs.
    destruct (Z.ltb_spec (otp_expiresAt stored) now); [lia|].
    destruct (String.eqb_spec (otp_code stored) (trim_s code)); [|congruence].
    done.
  - intros email code now tok s r s' k. unfold verifyOtp.
    destruct (otpStore s !! otp_key email) as [stored|] eqn:Hs;
      [|intros [= <- <-]; by left].
    destruct (Z.ltb_spec (otp_expiresAt stored) now).
    + intros [= <- <-]. unfold set_otp; cbn [otpStore].
      destruct (key_changes_or_same (otpStore s) (otp_key email) k) as [->|E].
      * right. split; [done|]. split; [apply lookup_delete_eq|].
        exists stored. split; [done|by left].
      * by left.
    + destruct (String.eqb (otp_code stored) (trim_s code)); cbn [negb];
        intros [= <- <-]; [|by left]. unfold set_otp; cbn [otpStore].
      destruct (key_changes_or_same (otpStore s) (otp_key email) k) as [->|E].
      * right. split; [done|]. split; [apply lookup_delete_eq|].
        exists stored. split; [done|by right].
      * by left.
  - intros email code now s r s' k. unfold verifyOtpOnly.
    destruct (otpStore s !! otp_key email) as [stored|] eqn:Hs;
      [|intros [= <- <-]; by left].
    destruct (Z.ltb_spec (otp_expiresAt stored) now).
    + intros [= <- <-]. unfold set_otp; cbn [otpStore].
      destruct (key_changes_or_same (otpStore s) (otp_key email) k) as [->|E].
      * right. split; [done|]. split; [apply lookup_delete_eq|].
        exists stored. split; [done|by left].
      * by left.
    + destruct (String.eqb (otp_code stored) (trim_s code)); cbn [negb];
        intros [= <- <-]; [|by left]. unfold set_otp; cbn [otpStore].
      destruct (key_changes_or_same (otpStore s) (otp_key email) k) as [->|E].
      * right. split; [done|]. split; [apply lookup_delete_eq|].
        exists stored. split; [done|by right].
      * by left.
Qed.

(** A store holding the OTP "123456" of "user@example.com", valid until
    time 1000. *)
Definition otp_state0 : otp_state :=
  mkOtpState (<["user@example.com" := mkStoredOtp "123456" 1000%Z]> ∅) ∅.

(** Witness of [otp_wrong_code_keeps_store]: a wrong code at time 10 leaves
    the store as it was. *)
Lemma otp_wrong_code_keeps_store_witness :
  verifyOtpOnly " User@Example.com " "654321" 10%Z otp_state0
    = (Thrown "Invalid verification code.", otp_state0).
Proof.
  destruct otp_wrong_code_keeps_store as [H _].
  apply (H " User@Example.com " "654321" 10%Z "tok" otp_state0 (mkStoredOtp "123456" 1000%Z));
    [reflexivity|simpl; lia|discriminate].
Defined.

End OtpClaims.

(* ------------------------------------------------------------------ *)
(** ** Receiver resolution *)

Module ReceiverFacts.
Import Js Db Like Receivers LikeOperand.

Lemma truthy_some_iff (x : string) : truthy (Some x) = true <-> x <> "".
Proof. simpl. destruct (String.eqb_spec x ""); simpl; split; congruence. Qed.

(** [Set.add] and its [forEach]. *)


Lemma NoDup_snoc {A} (l : list A) (x : A) : NoDup l -> ~ In x l -> NoDup (l ++ [x]).
Proof.
  intros Hl Hx. apply NoDup_app. split; [done|split; [|apply NoDup_singleton]].
  intros y Hy Hy'. apply list_elem_of_singleton in Hy' as ->.
  apply Hx, list_elem_of_In, Hy.
Qed.





(** The rows a query returns, [.neq('id', uid)] applied. *)



Lemma eq_filter_iff ph col : eq_filter ph col = true <-> col = Some ph.
Proof.
  destruct col as [x|]; simpl; [|split; discriminate].
  rewrite String.eqb_eq. split; congruence.
Qed.

(** A [LIKE] pattern without special characters matches itself only; one
    behind a leading [%] matches the strings ending with it. *)






End ReceiverFacts.

Module ReceiverSteps.
Import Js Db Like Receivers LikeOperand ReceiverFacts.






















End ReceiverSteps.

Module ReceiverClaims.
Import Js Db Like Receivers LikeOperand Fixtures ReceiverFacts ReceiverSteps.




End ReceiverClaims.

(* ================================================================== *)
(** * Further properties of the code *)

(* ------------------------------------------------------------------ *)
(** ** String primitives: trim and toLowerCase *)

Module StringFacts.
Import Js RecipientUtil Create NormalizerFacts SpecHelpers.

Ltac ascii_cases c :=
  destruct c as [[] [] [] [] [] [] [] []]; reflexivity.

Lemma is_space_lower c : is_space (lower_char c) = is_space c.
Proof. ascii_cases c. Qed.

Lemma lower_char_idem c : lower_char (lower_char c) = lower_char c.
Proof. ascii_cases c. Qed.

Lemma lower_char_at c : Ascii.eqb (lower_char c) "@"%char = Ascii.eqb c "@"%char.
Proof. ascii_cases c. Qed.

Lemma lower_char_dot c : Ascii.eqb (lower_char c) "."%char = Ascii.eqb c "."%char.
Proof. ascii_cases c. Qed.

Lemma email_atom_lower c : email_atom (lower_char c) = email_atom c.
Proof. ascii_cases c. Qed.

Lemma to_lower_idem l : to_lower (to_lower l) = to_lower l.
Proof.
  unfold to_lower. rewrite map_map. apply map_ext, lower_char_idem.
Qed.

Lemma drop_spaces_lower l : drop_spaces (to_lower l) = to_lower (drop_spaces l).
Proof.
  induction l as [|c l IH]; [done|]. simpl. rewrite is_space_lower.
  destruct (is_space c); [exact IH|done].
Qed.

Lemma trim_lower l : trim (to_lower l) = to_lower (trim l).
Proof.
  unfold trim. rewrite drop_spaces_lower. unfold to_lower.
  rewrite <- map_rev. fold (to_lower (rev (drop_spaces l))).
  rewrite drop_spaces_lower. unfold to_lower. by rewrite map_rev.
Qed.

Lemma drop_spaces_solid l : starts_solid (drop_spaces l).
Proof.
  induction l as [|c l IH]; simpl; [done|].
  destruct (is_space c) eqn:E; [exact IH|exact E].
Qed.

Lemma drop_spaces_split r : exists q, r = q ++ drop_spaces r.
Proof.
  induction r as [|c r IH]; [by exists []|].
  simpl. destruct (is_space c); [|by exists []].
  destruct IH as [q Hq]. exists (c :: q). simpl. by rewrite <- Hq.
Qed.

Lemma drop_spaces_fix l : starts_solid l -> drop_spaces l = l.
Proof. destruct l as [|c l]; simpl; [done|]. by intros ->. Qed.

Lemma trim_idem l : trim (trim l) = trim l.
Proof.
  unfold trim at 2.
  set (D := drop_spaces l).
  set (T := drop_spaces (rev D)).
  assert (HD : starts_solid D) by apply drop_spaces_solid.
  assert (HT : starts_solid T) by apply drop_spaces_solid.
  assert (Hsplit : exists q, rev D = q ++ T).
  { apply drop_spaces_split. }
  destruct Hsplit as [q Hq].
  assert (HrT : starts_solid (rev T)).
  { assert (HDe : D = rev T ++ rev q).
    { rewrite <- (rev_involutive D), Hq. apply rev_app_distr. }
    rewrite HDe in HD. destruct (rev T); [done|exact HD]. }
  unfold trim. rewrite (drop_spaces_fix (rev T) HrT), rev_involutive.
  by rewrite (drop_spaces_fix T HT).
Qed.

Lemma trim_s_idem x : trim_s (trim_s x) = trim_s x.
Proof. unfold trim_s. by rewrite chars_of_chars, trim_idem. Qed.

Lemma split_at_at_lower l :
  split_at_at (to_lower l) =
  option_map (fun ad => (to_lower ad.1, to_lower ad.2)) (split_at_at l).
Proof.
  induction l as [|c l IH]; [done|]. simpl. rewrite lower_char_at.
  destruct (Ascii.eqb c "@"%char); [done|].
  fold (to_lower l). rewrite IH. by destruct (split_at_at l) as [[a d]|].
Qed.

Lemma forallb_atom_lower l : forallb email_atom (to_lower l) = forallb email_atom l.
Proof.
  induction l as [|c l IH]; [done|]. simpl. by rewrite email_atom_lower, IH.
Qed.

Lemma inner_dot_lower l : inner_dot (to_lower l) = inner_dot l.
Proof.
  induction l as [|c [|c' l] IH]; [done|done|].
  change (inner_dot (to_lower (c :: c' :: l)))
    with (Ascii.eqb (lower_char c) "."%char || inner_dot (to_lower (c' :: l))).
  rewrite lower_char_dot, IH. done.
Qed.

Lemma email_regex_test_lower l : email_regex_test (to_lower l) = email_regex_test l.
Proof.
  unfold email_regex_test. rewrite split_at_at_lower.
  destruct (split_at_at l) as [[a d]|]; [|done]. simpl.
  rewrite !forallb_atom_lower. unfold to_lower. rewrite length_map.
  destruct d as [|x d]; [done|]. simpl. fold (to_lower d). by rewrite inner_dot_lower.
Qed.

End StringFacts.

(* ------------------------------------------------------------------ *)
(** ** recipient.util.ts: stored values are normal forms *)

Module NormalizerExtras.
Import Js RecipientUtil NormalizerFacts StringFacts.

Lemma only_digits_all l : forallb is_digit l = true -> only_digits l = l.
Proof.
  unfold only_digits. induction l as [|c l IH]; simpl; [done|].
  intros H. apply andb_true_iff in H as [-> H]. by rewrite IH.
Qed.

Lemma slice_last_idem n l : slice_last n (slice_last n l) = slice_last n l.
Proof.
  unfold slice_last at 1. rewrite slice_last_length.
  replace (Nat.min n (length l) - n) with 0 by lia. done.
Qed.

Lemma only_digits_slice_last n l :
  only_digits (slice_last n (only_digits l)) = slice_last n (only_digits l).
Proof. apply only_digits_all, forallb_skipn, only_digits_digits. Qed.

Lemma normalizePhone_idem p : normalizePhone (Some (normalizePhone p)) = normalizePhone p.
Proof.
  cbn [normalizePhone]. destruct (String.eqb_spec (normalizePhone p) "") as [->|_]; [done|].
  rewrite normalizePhone_chars, only_digits_slice_last, slice_last_idem.
  by rewrite <- normalizePhone_chars, string_of_list_ascii_of_string.
Qed.

Lemma normalizeEmail_idem x : normalizeEmail (Some (normalizeEmail x)) = normalizeEmail x.
Proof.
  cbn [normalizeEmail]. destruct (String.eqb_spec (normalizeEmail x) "") as [->|Hne]; [done|].
  destruct x as [raw|]; [|done]. rewrite normalizeEmail_some in *.
  rewrite chars_of_chars, <- trim_lower, to_lower_idem, trim_idem. done.
Qed.

(** Extra: [normalizePhone] is idempotent, and a phone value produced by
    [phoneForStorage] (what the customer write paths store) is a fixed point
    of [phoneForStorage] and is returned unchanged by [normalizePhone]: the
    stored value and its re-normalisation compare equal. *)
Theorem phone_normal_forms :
  (forall p, normalizePhone (Some (normalizePhone p)) = normalizePhone p) /\
  (forall p, phoneForStorage (phoneForStorage p) = phoneForStorage p /\
             normalizePhone (phoneForStorage p) = default "" (phoneForStorage p)).
Proof.
  split; [exact normalizePhone_idem|]. intros p.
  destruct (phoneForStorage p) as [v|] eqn:Hp; [|split; reflexivity].
  unfold phoneForStorage in Hp.
  set (D := only_digits (chars (default "" p))) in Hp.
  destruct (Nat.ltb_spec (length D) 10) as [Hlt|Hge]; [done|].
  injection Hp as <-.
  assert (HL : length (slice_last 10 D) = 10) by (rewrite slice_last_length; lia).
  assert (HS : only_digits (slice_last 10 D) = slice_last 10 D)
    by (apply only_digits_slice_last).
  split.
  - unfold phoneForStorage. cbv zeta. cbn [default from_option id]. rewrite chars_of_chars, HS, HL.
    cbn -[slice_last]. by rewrite slice_last_idem.
  - cbn [normalizePhone default].
    destruct (String.eqb_spec (of_chars (slice_last 10 D)) "") as [H|_].
    + apply of_chars_empty in H. rewrite H in HL. done.
    + by rewrite chars_of_chars, HS, slice_last_idem.
Qed.

(** Extra: [normalizeEmail] is idempotent, and an e-mail value produced by
    [emailForStorage] is a fixed point of [emailForStorage] and is returned
    unchanged by [normalizeEmail]. *)
Theorem email_normal_forms :
  (forall x, normalizeEmail (Some (normalizeEmail x)) = normalizeEmail x) /\
  (forall x, emailForStorage (emailForStorage x) = emailForStorage x /\
             normalizeEmail (emailForStorage x) = default "" (emailForStorage x)).
Proof.
  split; [exact normalizeEmail_idem|]. intros x.
  destruct (emailForStorage x) as [e|] eqn:He; [|split; reflexivity].
  unfold emailForStorage in He.
  destruct (String.eqb (normalizeEmail x) "" || negb (email_regex_test (chars (normalizeEmail x))))
    eqn:Hb; [done|].
  injection He as <-. cbn [default]. split; [|apply normalizeEmail_idem].
  unfold emailForStorage. rewrite normalizeEmail_idem, Hb. done.
Qed.

End NormalizerExtras.

(* ------------------------------------------------------------------ *)
(** ** otp.service.ts and the auth handlers: codes and reset tokens *)

Module OtpFacts.
Import Js RecipientUtil Db Create Otp OtpFlow NormalizerFacts StringFacts.

Lemma otp_key_trim e : otp_key (trim_s e) = otp_key e.
Proof. unfold otp_key, trim_s. by rewrite chars_of_chars, trim_idem. Qed.

Lemma otp_key_regex e :
  email_regex_test (chars (otp_key e)) = email_regex_test (trim (chars e)).
Proof. unfold otp_key. by rewrite chars_of_chars, email_regex_test_lower. Qed.

Lemma otp_key_empty e : trim_s e = ""%string -> otp_key e = ""%string.
Proof.
  unfold trim_s, otp_key. intros H. apply of_chars_empty in H. by rewrite H.
Qed.

Lemma regex_empty : email_regex_test (chars "") = false.
Proof. reflexivity. Qed.

(** What a [sendOtp] call that gets past its e-mail check leaves behind. *)
Lemma sendOtp_run e c now t f s r s1 :
  sendOtp e c now t f s = (r, s1) -> r <> Thrown "Invalid email address" ->
  s1 = set_otp (<[otp_key e := mkStoredOtp c (now + 10 * 60 * 1000)%Z]> (otpStore s)) s /\
  email_regex_test (chars (otp_key e)) = true /\
  r = (if t && f then Thrown "sendMail failed" else Returned tt).
Proof.
  unfold sendOtp. destruct (email_regex_test (chars (otp_key e))) eqn:Hr; cbn [negb].
  - destruct (t && f); intros [= <- <-] _; done.
  - intros [= <- _]. done.
Qed.

Lemma send_otp_handler_run raw c now t f s msg s1 :
  send_otp_handler (Some raw) c now t f s = (Returned msg, s1) ->
  s1 = set_otp (<[otp_key raw := mkStoredOtp c (now + 10 * 60 * 1000)%Z]>
                  (otpStore (cleanup now s))) (cleanup now s) /\
  email_regex_test (chars (otp_key raw)) = true.
Proof.
  unfold send_otp_handler. cbn [option_map default from_option id].
  destruct (truthy (Some (trim_s raw))); cbn [negb]; [|discriminate].
  destruct (email_regex_test (chars (trim_s raw))); cbn [negb]; [|discriminate].
  destruct (sendOtp (trim_s raw) c now t f (cleanup now s)) as [r s'] eqn:Hs.
  destruct r as [u|m]; [|discriminate]. intros [= _ <-].
  apply sendOtp_run in Hs as (-> & Hr & _); [|discriminate].
  rewrite otp_key_trim in *. done.
Qed.

(** Extra: the [send-otp] handler checks the trimmed e-mail against the
    same regular expression as [OtpService.sendOtp], which lower-cases it
    first; lower-casing does not change the verdict, so the service's
    "Invalid email address" error never reaches a caller of the handler.
    When the handler accepts the address, the new code is stored under the
    trimmed, lower-cased address with an expiry ten minutes ahead, and the
    request fails only when the configured mail transport fails (the code
    stays stored). *)
Theorem send_otp_handler_spec :
  (forall email code now t f s,
     fst (send_otp_handler email code now t f s) <> Thrown "Invalid email address") /\
  (forall raw code now t f s,
     trim_s raw <> ""%string -> email_regex_test (chars (trim_s raw)) = true ->
     otpStore (snd (send_otp_handler (Some raw) code now t f s)) !! otp_key raw
       = Some (mkStoredOtp code (now + 10 * 60 * 1000)%Z) /\
     fst (send_otp_handler (Some raw) code now t f s)
       = if t && f then Thrown "sendMail failed"
         else Returned "Verification code sent to your email").
Proof.
  assert (Hcheck : forall raw, email_regex_test (chars (trim_s raw)) = true ->
            email_regex_test (chars (otp_key (trim_s raw))) = true).
  { intros raw H. rewrite otp_key_regex.
    unfold trim_s in *. rewrite chars_of_chars in *. by rewrite trim_idem. }
  split.
  - intros email code now t f s. unfold send_otp_handler.
    destruct (truthy (option_map trim_s email)) eqn:Ht; cbn [negb fst]; [|discriminate].
    destruct email as [raw|]; [|discriminate]. cbn [option_map default from_option id].
    destruct (email_regex_test (chars (trim_s raw))) eqn:Hr; cbn [negb fst]; [|discriminate].
    unfold sendOtp. rewrite Hcheck by done. cbn [negb].
    destruct (t && f); cbn [fst]; discriminate.
  - intros raw code now t f s Hne Hr. unfold send_otp_handler.
    cbn [option_map default from_option id].
    assert (Ht : truthy (Some (trim_s raw)) = true)
      by (cbn; by destruct (String.eqb_spec (trim_s raw) "")).
    rewrite Ht, Hr. cbn [negb]. unfold sendOtp. rewrite Hcheck by done. cbn [negb].
    rewrite otp_key_trim.
    destruct (t && f); cbn [fst snd]; unfold set_otp; cbn [otpStore];
      (split; [apply lookup_insert_eq|done]).
Qed.

(** Witness of [send_otp_handler_spec]: " A@B.co " gets code "123456" at
    time 0 with no SMTP configured. *)
Lemma send_otp_handler_spec_witness :
  otpStore (snd (send_otp_handler (Some " A@B.co ") "123456" 0%Z false false
                   (mkOtpState ∅ ∅))) !! "a@b.co"
    = Some (mkStoredOtp "123456" 600000%Z).
Proof.
  destruct send_otp_handler_spec as [_ H].
  apply (H " A@B.co " "123456" 0%Z false false (mkOtpState ∅ ∅));
    [discriminate|reflexivity].
Defined.

(** Extra: once [sendOtp] has passed its e-mail check (whether or not the
    mail is then delivered), and until the ten minutes are over, the code
    just sent is the only one that verifies for any spelling of the address
    with the same trimmed, lower-cased form: [verifyOtp] and
    [verifyOtpOnly] accept exactly a code whose trimmed value is the new
    code, so a code sent earlier to the same address no longer works. *)
Theorem sendOtp_then_verify email code now t f s r s1 email' code' now' tok :
  sendOtp email code now t f s = (r, s1) -> r <> Thrown "Invalid email address" ->
  otp_key email' = otp_key email -> (now' <= now + 10 * 60 * 1000)%Z ->
  fst (verifyOtp email' code' now' tok s1)
    = (if String.eqb (trim_s code') code then Returned tok
       else Thrown "Invalid verification code.") /\
  fst (verifyOtpOnly email' code' now' s1)
    = (if String.eqb (trim_s code') code then Returned tt
       else Thrown "Invalid verification code.").
Proof.
  intros Hs Hr Hk Hnow. apply sendOtp_run in Hs as (-> & _ & _); [|exact Hr].
  unfold verifyOtp, verifyOtpOnly. unfold set_otp; cbn [otpStore].
  rewrite Hk, !lookup_insert_eq. cbn [otp_expiresAt otp_code].
  destruct (Z.ltb_spec (now + 10 * 60 * 1000) now')%Z; [lia|].
  rewrite (String.eqb_sym code (trim_s code')).
  by destruct (String.eqb (trim_s code') code).
Qed.

(** Witness of [sendOtp_then_verify]: a code sent at time 0 to
    "user@example.com" and checked at time 5 with " USER@example.com". *)
Lemma sendOtp_then_verify_witness :
  fst (verifyOtpOnly " USER@example.com" "111111" 5%Z
         (snd (sendOtp "user@example.com" "111111" 0%Z false false (mkOtpState ∅ ∅))))
    = Returned tt.
Proof.
  destruct (sendOtp "user@example.com" "111111" 0%Z false false (mkOtpState ∅ ∅))
    as [r s1] eqn:Hs.
  assert (Hr : r = Returned tt) by (vm_compute in Hs; congruence).
  destruct (sendOtp_then_verify "user@example.com" "111111" 0%Z false false
              (mkOtpState ∅ ∅) r s1 " USER@example.com" "111111" 5%Z "tok")
    as [_ H]; [exact Hs|rewrite Hr; discriminate|reflexivity|simpl; lia|].
  exact H.
Defined.

(** Extra: the password-reset flow. After the [send-otp] handler has sent
    a code to an address, the [verify-otp] handler called within ten
    minutes with any spelling of the address that has the same trimmed,
    lower-cased form and the code (up to surrounding spaces) returns the
    reset token; [consumeResetToken] within fifteen minutes of that returns
    the trimmed, lower-cased address; the token then no longer works, and
    neither does the code. *)
Theorem otp_reset_round_trip email code now t s msg s1 email' code' now1 tok now2 now3 :
  send_otp_handler (Some email) code now t false s = (Returned msg, s1) ->
  otp_key email' = otp_key email -> trim_s code' = code -> code <> ""%string ->
  (now1 <= now + 10 * 60 * 1000)%Z -> (now2 <= now1 + 15 * 60 * 1000)%Z ->
  exists s2 s3,
    verify_otp_handler (Some email') (Some code') now1 tok s1 = (Returned tok, s2) /\
    consumeResetToken tok now2 s2 = (Returned (otp_key email), s3) /\
    consumeResetToken tok now3 s3 = (Thrown "Invalid or expired reset token.", s3) /\
    fst (verify_otp_handler (Some email') (Some code') now3 tok s3)
      = Thrown "No OTP found for this email. Please request a new code.".
Proof.
  intros Hs Hk Hc Hne H1 H2.
  apply send_otp_handler_run in Hs as [-> Hreg].
  assert (He' : truthy (Some (trim_s email')) = true).
  { cbn. destruct (String.eqb_spec (trim_s email') "") as [E|]; [|done].
    apply otp_key_empty in E. rewrite Hk in E. rewrite E in Hreg. done. }
  assert (Hc' : truthy (Some (trim_s code')) = true).
  { cbn. rewrite Hc. by destruct (String.eqb_spec code ""). }
  set (k := otp_key email).
  set (s0 := cleanup now s).
  eexists _, _. split; [|split; [|split]].
  - unfold verify_otp_handler. cbn [option_map default from_option id].
    rewrite He', Hc'. cbn [negb orb].
    unfold verifyOtp. rewrite otp_key_trim, Hk. fold k.
    unfold set_otp at 1; cbn [otpStore]. rewrite lookup_insert_eq.
    cbn [otp_expiresAt otp_code].
    destruct (Z.ltb_spec (now + 10 * 60 * 1000) now1)%Z; [lia|].
    rewrite trim_s_idem, Hc, String.eqb_refl. cbn [negb]. reflexivity.
  - unfold consumeResetToken. cbn [resetTokenStore]. rewrite lookup_insert_eq.
    cbn [rt_expiresAt rt_email].
    destruct (Z.ltb_spec (now1 + 15 * 60 * 1000) now2)%Z; [lia|].
    reflexivity.
  - unfold consumeResetToken at 1. unfold set_reset at 1; cbn [resetTokenStore].
    rewrite lookup_delete_eq. reflexivity.
  - unfold verify_otp_handler. cbn [option_map default from_option id].
    rewrite He', Hc'. cbn [negb orb].
    unfold verifyOtp. rewrite otp_key_trim, Hk. fold k.
    unfold set_reset; cbn [otpStore]. rewrite lookup_delete_eq. reflexivity.
Qed.

(** Witness of [otp_reset_round_trip]: a code sent at time 0 to
    "user@example.com", verified at time 10 as " User@Example.com " with
    " 111111", the token consumed at time 20. *)
Lemma otp_reset_round_trip_witness :
  exists msg s1 s2 s3,
    send_otp_handler (Some "user@example.com") "111111" 0%Z false false (mkOtpState ∅ ∅)
      = (Returned msg, s1) /\
    verify_otp_handler (Some " User@Example.com ") (Some " 111111") 10%Z "tok" s1
      = (Returned "tok", s2) /\
    consumeResetToken "tok" 20%Z s2 = (Returned "user@example.com"%string, s3).
Proof.
  destruct (send_otp_handler (Some "user@example.com") "111111" 0%Z false false
              (mkOtpState ∅ ∅)) as [r s1] eqn:Hs.
  destruct r as [msg|m]; [|vm_compute in Hs; discriminate].
  destruct (otp_reset_round_trip "user@example.com" "111111" 0%Z false (mkOtpState ∅ ∅)
              msg s1 " User@Example.com " " 111111" 10%Z "tok" 20%Z 20%Z)
    as (s2 & s3 & Hv & Hcons & _ & _);
    [exact Hs|reflexivity|reflexivity|discriminate|lia|lia|].
  exists msg, s1, s2, s3. split; [reflexivity|]. split; [exact Hv|exact Hcons].
Defined.

(** What [cleanup] leaves of each entry: it is dropped when its expiry lies
    before [now] and kept unchanged otherwise. *)
Lemma cleanup_lookup now s k :
  otpStore (cleanup now s) !! k
    = match otpStore s !! k with
      | Some o => if (otp_expiresAt o <? now)%Z then None else Some o
      | None => None
      end /\
  resetTokenStore (cleanup now s) !! k
    = match resetTokenStore s !! k with
      | Some t => if (rt_expiresAt t <? now)%Z then None else Some t
      | None => None
      end.
Proof.
  unfold cleanup; cbn [otpStore resetTokenStore]. split.
  - destruct (otpStore s !! k) as [o|] eqn:E.
    + destruct (Z.ltb_spec (otp_expiresAt o) now).
      * apply map_lookup_filter_None_2. right. intros o' E'.
        rewrite E in E'. injection E' as <-. cbn. lia.
      * apply map_lookup_filter_Some_2; [done|]. cbn. lia.
    + apply map_lookup_filter_None_2. by left.
  - destruct (resetTokenStore s !! k) as [o|] eqn:E.
    + destruct (Z.ltb_spec (rt_expiresAt o) now).
      * apply map_lookup_filter_None_2. right. intros o' E'.
        rewrite E in E'. injection E' as <-. cbn. lia.
      * apply map_lookup_filter_Some_2; [done|]. cbn. lia.
    + apply map_lookup_filter_None_2. by left.
Qed.

(** Extra: [cleanup] (run by the [send-otp] handler before every send)
    never changes the outcome of a later [verifyOtp] or [consumeResetToken]
    call at a time no earlier than the cleanup: a live code or token stays
    usable and a wrong code stays wrong. The only difference is the message
    for an entry that had already expired: "No OTP found ..." or "Invalid
    or expired reset token." instead of the "expired" message. *)
Theorem cleanup_then_verify now now' s email code tok token :
  (now <= now')%Z ->
  (fst (verifyOtp email code now' tok (cleanup now s)) = fst (verifyOtp email code now' tok s) \/
   (fst (verifyOtp email code now' tok s) = Thrown "OTP has expired. Please request a new code." /\
    fst (verifyOtp email code now' tok (cleanup now s))
      = Thrown "No OTP found for this email. Please request a new code.")) /\
  (fst (consumeResetToken token now' (cleanup now s)) = fst (consumeResetToken token now' s) \/
   (fst (consumeResetToken token now' s) = Thrown "Reset token has expired." /\
    fst (consumeResetToken token now' (cleanup now s)) = Thrown "Invalid or expired reset token.")).
Proof.
  intros Hle. split.
  - unfold verifyOtp. cbv zeta.
    rewrite (proj1 (cleanup_lookup now s (otp_key email))).
    destruct (otpStore s !! otp_key email) as [o|]; [|by left].
    destruct (Z.ltb_spec (otp_expiresAt o) now), (Z.ltb_spec (otp_expiresAt o) now');
      try lia; try destruct (negb _); first [by left|right; split; reflexivity].
  - unfold consumeResetToken.
    rewrite (proj2 (cleanup_lookup now s token)).
    destruct (resetTokenStore s !! token) as [o|]; [|by left].
    destruct (Z.ltb_spec (rt_expiresAt o) now), (Z.ltb_spec (rt_expiresAt o) now');
      try lia; try destruct (negb _); first [by left|right; split; reflexivity].
Qed.

(** Witness of [cleanup_then_verify]: a code for "a@b.co" expiring at 10
    survives a cleanup at 3 and verifies at 5. *)
Lemma cleanup_then_verify_witness :
  fst (verifyOtp "a@b.co" "1" 5%Z "t"
         (cleanup 3%Z (mkOtpState (<["a@b.co" := mkStoredOtp "1" 10%Z]> ∅) ∅)))
    = Returned "t".
Proof.
  pose proof (cleanup_then_verify 3%Z 5%Z (mkOtpState (<["a@b.co" := mkStoredOtp "1" 10%Z]> ∅) ∅)
                "a@b.co" "1" "t" "t" ltac:(lia)) as [[H|[H _]] _].
  - rewrite H. vm_compute. reflexivity.
  - vm_compute in H. discriminate.
Defined.

(** Extra: a reset token works at most once. Whatever a [consumeResetToken]
    call returns (the e-mail, "expired" or "invalid"), the token is gone
    afterwards, so any later call with it throws "Invalid or expired reset
    token."; the OTP store is not touched. *)
Theorem consumeResetToken_once tok now s r s' now' :
  consumeResetToken tok now s = (r, s') ->
  consumeResetToken tok now' s' = (Thrown "Invalid or expired reset token.", s') /\
  otpStore s' = otpStore s.
Proof.
  unfold consumeResetToken at 1.
  destruct (resetTokenStore s !! tok) as [st|] eqn:E.
  - assert (Hd : resetTokenStore (set_reset (delete tok (resetTokenStore s)) s) !! tok = None)
      by (unfold set_reset; cbn; apply lookup_delete_eq).
    destruct (rt_expiresAt st <? now)%Z; intros [= <- <-];
      (split; [unfold consumeResetToken; by rewrite Hd|done]).
  - intros [= <- <-]. split; [|done]. unfold consumeResetToken. by rewrite E.
Qed.

(** Witness of [consumeResetToken_once]: the token "t" consumed at time 1
    and presented again at time 2. *)
Lemma consumeResetToken_once_witness :
  consumeResetToken "t" 2%Z
    (snd (consumeResetToken "t" 1%Z
            (mkOtpState ∅ (<["t" := mkStoredResetToken "a@b.co" 100%Z]> ∅))))
  = (Thrown "Invalid or expired reset token.",
     snd (consumeResetToken "t" 1%Z
            (mkOtpState ∅ (<["t" := mkStoredResetToken "a@b.co" 100%Z]> ∅)))).
Proof.
  destruct (consumeResetToken "t" 1%Z
              (mkOtpState ∅ (<["t" := mkStoredResetToken "a@b.co" 100%Z]> ∅)))
    as [r s'] eqn:E.
  apply (consumeResetToken_once "t" 1%Z _ r s' 2%Z E).
Defined.

End OtpFacts.

(* ------------------------------------------------------------------ *)
(** ** push.service.ts: tokens, chunks, delivery *)

Module PushFacts.
Import Js Db Channels PushSend NormalizerFacts SpecHelpers.

(** Extra: [isExpoPushToken] accepts exactly the strings
    ["ExponentPushToken[" ++ m ++ "]"] with [m] non-empty and free of line
    terminators ([m] may itself contain brackets). *)
Theorem isExpoPushToken_spec (t : string) :
  isExpoPushToken t = true <->
  exists m, chars t = chars "ExponentPushToken[" ++ m ++ ["]"%char] /\ m <> [] /\
            forallb not_line_terminator m = true.
Proof.
  unfold isExpoPushToken. set (pre := chars "ExponentPushToken["). split.
  - intros H. apply andb_true_iff in H as [H Hm].
    apply andb_true_iff in H as [H Hl]. apply andb_true_iff in H as [Hp Hlen].
    apply String.eqb_eq in Hp. apply Ascii.eqb_eq in Hl. apply Nat.leb_le in Hlen.
    set (rest := skipn (length pre) (chars t)) in *.
    assert (Hrest : rest <> []) by (intros E; rewrite E in Hlen; simpl in Hlen; lia).
    exists (List.removelast rest). split; [|split].
    + rewrite <- (firstn_skipn (length pre) (chars t)). fold rest.
      assert (Hf : firstn (length pre) (chars t) = pre).
      { rewrite <- (chars_of_chars (firstn _ _)), Hp. reflexivity. }
      rewrite Hf. f_equal. rewrite <- Hl. apply app_removelast_last, Hrest.
    + intros E. pose proof (app_removelast_last "x"%char Hrest) as Hr.
      rewrite E in Hr. rewrite Hr in Hlen. simpl in Hlen. lia.
    + exact Hm.
  - intros (m & Ht & Hne & Hm). rewrite Ht.
    rewrite take_app_length, drop_app_length.
    assert (Hpre : of_chars pre = "ExponentPushToken["%string) by reflexivity.
    rewrite Hpre, String.eqb_refl. cbn [andb].
    unfold not_line_terminator in Hm. rewrite List.last_last, removelast_last, Hm.
    rewrite length_app. destruct m; [done|]. cbn [length]. rewrite Nat.add_1_r. reflexivity.
Qed.

Lemma list_eq_dec_nil {A} (l : list A) : { l = [] } + { l <> [] }.
Proof. destruct l; [by left|by right]. Defined.

Lemma chunk_aux_spec {A} n (l : list A) :
  length l <= n ->
  concat (chunk_aux n l) = l /\
  Forall (fun c => c <> [] /\ length c <= 100) (chunk_aux n l) /\
  Forall (fun c => length c = 100) (List.removelast (chunk_aux n l)).
Proof.
  revert l; induction n as [|n IH]; intros l Hl.
  - destruct l; [|simpl in Hl; lia]. done.
  - destruct (list_eq_dec_nil l) as [->|Hne]; [done|].
    assert (Hstep : chunk_aux (S n) l = firstn 100 l :: chunk_aux n (skipn 100 l))
      by (destruct l; [contradiction|reflexivity]).
    rewrite Hstep.
    assert (Hlen : length (skipn 100 l) <= n)
      by (rewrite length_skipn; destruct l; [contradiction|simpl in *; lia]).
    destruct (IH (skipn 100 l) Hlen) as (Hc & Hs & Hr).
    split; [|split].
    + simpl. rewrite Hc. apply firstn_skipn.
    + constructor; [|exact Hs]. split.
      * destruct l; [contradiction|discriminate].
      * rewrite length_firstn. lia.
    + destruct (chunk_aux n (skipn 100 l)) as [|c cs] eqn:Ec; [constructor|].
      change (Forall (fun c => length c = 100)
                (firstn 100 l :: List.removelast (c :: cs))).
      constructor; [|exact Hr].
      rewrite length_firstn. destruct (Nat.le_gt_cases 100 (length l)); [lia|].
      rewrite skipn_all2 in Ec by lia. destruct n; discriminate.
Qed.

(** Extra: [chunkPushNotifications] splits the messages into chunks
    that, concatenated, give the messages back in order; every chunk is
    non-empty and has at most 100 messages, and all chunks but the last
    have exactly 100. *)
Theorem chunkPushNotifications_spec {A} (l : list A) :
  concat (chunkPushNotifications l) = l /\
  Forall (fun c => c <> [] /\ length c <= 100) (chunkPushNotifications l) /\
  Forall (fun c => length c = 100) (List.removelast (chunkPushNotifications l)).
Proof. apply chunk_aux_spec. lia. Qed.

Lemma add_pushed_app a b s : add_pushed b (add_pushed a s) = add_pushed (a ++ b) s.
Proof. destruct s. unfold add_pushed. cbn. by rewrite app_assoc. Qed.

Lemma add_pushed_nil s : add_pushed [] s = s.
Proof. destruct s. unfold add_pushed. cbn. by rewrite app_nil_r. Qed.

Lemma send_chunks_run E i cs s :
  send_chunks E i cs s = (Ok tt, add_pushed (delivered E i cs) s).
Proof.
  revert i s; induction cs as [|c cs IH]; intros i s.
  - by rewrite add_pushed_nil.
  - cbn [send_chunks]. unfold bind at 1, try_catch.
    unfold delivered. cbn [length seq combine].
    cbn [List.filter fst]. destruct (env_push_chunk_fails E i).
    + cbn [negb]. unfold throw, ret. rewrite IH. reflexivity.
    + cbn [negb map snd concat]. unfold bind, get_st, put_st. rewrite IH.
      by rewrite add_pushed_app.
Qed.

Lemma delivered_all E i cs :
  (forall j, env_push_chunk_fails E j = false) -> delivered E i cs = concat cs.
Proof.
  intros H. unfold delivered. revert i; induction cs as [|c cs IH]; intros i; [done|].
  cbn [length seq combine List.filter fst]. rewrite H. cbn. by rewrite IH.
Qed.

(** Extra: [sendMany] rejects only when the Expo SDK cannot be loaded, and
    then sends nothing. Otherwise it resolves, and what reaches the push
    service are the messages whose token is an Expo token, in order, minus
    the chunks whose sending failed (a failed chunk does not stop the
    following ones); when no chunk fails, every such message is sent. *)
Theorem sendMany_spec E rs s :
  let valid := List.filter
    (fun r => truthy (Some (push_to r)) && isExpoPushToken (push_to r)) rs in
  (env_push_client_loads E = false ->
     sendMany E rs s = (Exn (Failure "import('expo-server-sdk') rejected"), s)) /\
  (env_push_client_loads E = true ->
     sendMany E rs s
       = (Ok tt, add_pushed (delivered E 0 (chunkPushNotifications valid)) s) /\
     ((forall i, env_push_chunk_fails E i = false) ->
        sendMany E rs s = (Ok tt, add_pushed valid s))).
Proof.
  intros valid.
  assert (Hrun : env_push_client_loads E = true ->
     sendMany E rs s = (Ok tt, add_pushed (delivered E 0 (chunkPushNotifications valid)) s)).
  { intros Hl. unfold sendMany, push_getClient. rewrite Hl.
    unfold bind at 1, ret at 1.
    destruct (Nat.eqb_spec (length rs) 0) as [H0|_].
    - apply length_zero_iff_nil in H0. subst rs. subst valid. cbn.
      by rewrite add_pushed_nil.
    - fold valid. destruct (Nat.eqb_spec (length valid) 0) as [H0|_].
      + apply length_zero_iff_nil in H0. rewrite H0. cbn. by rewrite add_pushed_nil.
      + apply send_chunks_run. }
  split; [|split; [exact (Hrun H)|]].
  - intros Hl. unfold sendMany, push_getClient. rewrite Hl. reflexivity.
  - intros Hf. rewrite (Hrun H), delivered_all by exact Hf.
    by destruct (chunkPushNotifications_spec valid) as [-> _].
Qed.

(** Witness of [sendMany_spec]: two recipients, one with an Expo token,
    every external call succeeding. *)
Lemma sendMany_spec_witness :
  sendMany Fixtures.env_all_ok
    [mkPush "ExponentPushToken[a]" "t" "b"; mkPush "bad" "t" "b"] Fixtures.store0
  = (Ok tt, add_pushed [mkPush "ExponentPushToken[a]" "t" "b"] Fixtures.store0).
Proof.
  destruct (sendMany_spec Fixtures.env_all_ok
              [mkPush "ExponentPushToken[a]" "t" "b"; mkPush "bad" "t" "b"]
              Fixtures.store0) as [_ H].
  destruct H as [_ H]; [reflexivity|].
  apply H. intros i. reflexivity.
Defined.

Lemma isExpoPushToken_nonempty t : isExpoPushToken t = true -> truthy (Some t) = true.
Proof. destruct t; [discriminate|done]. Qed.

(** Extra: [PushService.send(to, title, body)] behaves exactly as
    [sendMany] with the single recipient [{ token: to, title, body }]. *)
Theorem push_send_as_sendMany E to title body s :
  push_send E to title body s = sendMany E [mkPush to title body] s.
Proof.
  unfold push_send, sendMany, bind.
  destruct (push_getClient E s) as [[u|e] s'] eqn:Hg; [|done].
  cbn [length Nat.eqb List.filter push_to].
  destruct (isExpoPushToken to) eqn:Ht.
  - rewrite (isExpoPushToken_nonempty to Ht). reflexivity.
  - rewrite andb_false_r. reflexivity.
Qed.

End PushFacts.

(* ------------------------------------------------------------------ *)
(** ** invoices.controller.ts: update, delete and addItem are scoped to
       the caller *)

Module InvoiceFacts.
Import Db Create View InvoiceItems.

Lemma set_docs_same s : set_docs (st_docs s) s = s.
Proof. by destruct s. Qed.

Lemma owned_false uid id d :
  ~ (doc_id d = id /\ doc_user_id d = uid) ->
  (Nat.eqb (doc_id d) id && String.eqb (doc_user_id d) uid) = false.
Proof.
  intros H. destruct (Nat.eqb_spec (doc_id d) id), (String.eqb_spec (doc_user_id d) uid);
    try done. tauto.
Qed.

Lemma owned_true uid id d :
  (Nat.eqb (doc_id d) id && String.eqb (doc_user_id d) uid) = true <->
  doc_id d = id /\ doc_user_id d = uid.
Proof. rewrite andb_true_iff, Nat.eqb_eq, String.eqb_eq. done. Qed.

Lemma filter_none_owned uid id ds :
  Forall (fun d => ~ (doc_id d = id /\ doc_user_id d = uid)) ds ->
  List.filter (fun d => Nat.eqb (doc_id d) id && String.eqb (doc_user_id d) uid) ds = [] /\
  List.filter (fun d => negb (Nat.eqb (doc_id d) id && String.eqb (doc_user_id d) uid)) ds = ds.
Proof.
  induction 1 as [|d ds Hd _ [IH1 IH2]]; [done|]. cbn.
  rewrite owned_false by exact Hd. cbn. by rewrite IH1, IH2.
Qed.

Lemma In_update_foreign uid id ub ds d :
  doc_user_id d <> uid ->
  In d (map (fun x => if Nat.eqb (doc_id x) id && String.eqb (doc_user_id x) uid
                      then apply_update ub x else x) ds) <-> In d ds.
Proof.
  intros Hd. rewrite in_map_iff. split.
  - intros (x & Hx & Hin). destruct (_ && _) eqn:Ho; [|by subst].
    apply owned_true in Ho as [_ Ho]. subst d. cbn in Hd. congruence.
  - intros Hin. exists d. split; [|done].
    destruct (String.eqb_spec (doc_user_id d) uid); [congruence|].
    by rewrite andb_false_r.
Qed.

Lemma In_delete_iff uid id ds d :
  In d (List.filter (fun x => negb (Nat.eqb (doc_id x) id && String.eqb (doc_user_id x) uid)) ds)
  <-> In d ds /\ ~ (doc_id d = id /\ doc_user_id d = uid).
Proof.
  rewrite filter_In, negb_true_iff. split.
  - intros [Hin Ho]. split; [done|]. intros H. apply owned_true in H. congruence.
  - intros [Hin Ho]. split; [done|]. by apply owned_false.
Qed.

(** Extra: [update], [delete] and [addItem] never add, change or remove an
    invoice of another user, and a request for an invoice id the caller
    does not own (someone else's, or a missing one) changes nothing at
    all: [update] fails with the PostgREST "no rows" error, [addItem] with
    "Invoice not found", while [delete] still answers [success: true]. *)
Theorem invoice_handlers_scoped uid s :
  (forall id ub r s', invoice_update uid id ub s = (r, s') ->
     forall d, doc_user_id d <> uid -> (In d (st_docs s') <-> In d (st_docs s))) /\
  (forall e id r s', invoice_delete e uid id s = (r, s') ->
     forall d, doc_user_id d <> uid -> (In d (st_docs s') <-> In d (st_docs s))) /\
  (forall e id body r s', invoice_addItem e uid id body s = (r, s') ->
     st_docs s' = st_docs s) /\
  (forall id, Forall (fun d => ~ (doc_id d = id /\ doc_user_id d = uid)) (st_docs s) ->
     (forall ub, invoice_update uid id ub s
                 = (Exn (BadRequest "JSON object requested, multiple (or no) rows returned"), s)) /\
     invoice_delete false uid id s = (Ok true, s) /\
     (forall e body, invoice_addItem e uid id body s = (Exn (NotFound "Invoice not found"), s))).
Proof.
  split; [|split; [|split]].
  - intros id ub r s' Hrun d Hd. revert Hrun. unfold invoice_update, bind, get_st.
    destruct (single _) as [x|]; [|intros [= _ <-]; done].
    unfold put_st, ret. intros [= _ <-]. cbn. by apply In_update_foreign.
  - intros e id r s' Hrun d Hd. revert Hrun. unfold invoice_delete.
    destruct e; [intros [= _ <-]; done|].
    unfold bind, get_st, put_st, ret. intros [= _ <-]. cbn.
    rewrite In_delete_iff. split; [tauto|]. intros Hin; split; [done|]. tauto.
  - intros e id body r s' Hrun. revert Hrun. unfold invoice_addItem, bind, get_st.
    destruct (single _) as [x|]; [|intros [= _ <-]; done].
    destruct e; [intros [= _ <-]; done|].
    unfold put_st, ret. intros [= _ <-]. done.
  - intros id Hnone. destruct (filter_none_owned uid id (st_docs s) Hnone) as [H1 H2].
    split; [|split].
    + intros ub. unfold invoice_update, bind, get_st. by rewrite H1.
    + unfold invoice_delete, bind, get_st, put_st, ret. by rewrite H2, set_docs_same.
    + intros e body. unfold invoice_addItem, bind, get_st. by rewrite H1.
Qed.

(** Witness of [invoice_handlers_scoped]: user [u2] asks to delete and to
    add an item to quotation 1 of [u1] in [store1]. *)
Lemma invoice_handlers_scoped_witness :
  InvoiceItems.invoice_delete false "u2" 1 Fixtures.store1 = (Ok true, Fixtures.store1) /\
  InvoiceItems.invoice_addItem false "u2" 1 (mkItemDto None None None None) Fixtures.store1
    = (Exn (NotFound "Invoice not found"), Fixtures.store1).
Proof.
  destruct (invoice_handlers_scoped "u2" Fixtures.store1) as (_ & _ & _ & H).
  destruct (H 1) as (_ & Hd & Ha).
  - repeat constructor. cbn. intros [_ E]. discriminate.
  - split; [exact Hd|apply Ha].
Defined.

(** Extra: [delete] removes exactly the caller's invoice with that id:
    afterwards the invoices are those of before minus that one, the
    answer is [success: true], and adding an item to the deleted invoice
    fails with "Invoice not found". *)
Theorem invoice_delete_spec uid id s r s' :
  invoice_delete false uid id s = (r, s') ->
  r = Ok true /\
  (forall d, In d (st_docs s') <-> In d (st_docs s) /\ ~ (doc_id d = id /\ doc_user_id d = uid)) /\
  (forall e body, invoice_addItem e uid id body s' = (Exn (NotFound "Invoice not found"), s')).
Proof.
  unfold invoice_delete, bind, get_st, put_st, ret. intros [= <- <-].
  split; [done|]. split.
  - intros d. cbn. apply In_delete_iff.
  - intros e body. unfold invoice_addItem, bind, get_st. cbn [st_docs set_docs].
    replace (List.filter _ (List.filter _ (st_docs s))) with (@nil document); [done|].
    symmetry. apply filter_none_owned. apply List.Forall_forall. intros d Hd.
    apply In_delete_iff in Hd. tauto.
Qed.

(** Witness of [invoice_delete_spec]: [u1] deletes its document 1 and
    then tries to add an item to it. *)
Lemma invoice_delete_spec_witness :
  InvoiceItems.invoice_addItem false "u1" 1 (mkItemDto None None None None)
    (snd (InvoiceItems.invoice_delete false "u1" 1 Fixtures.store1))
  = (Exn (NotFound "Invoice not found"),
     snd (InvoiceItems.invoice_delete false "u1" 1 Fixtures.store1)).
Proof.
  destruct (InvoiceItems.invoice_delete false "u1" 1 Fixtures.store1) as [r s'] eqn:E.
  destruct (invoice_delete_spec "u1" 1 Fixtures.store1 r s' E) as (_ & _ & H).
  exact (H false (mkItemDto None None None None)).
Defined.

(** Extra: when the caller owns the invoice, [addItem] appends one item
    to it and returns it: the name falls back to "Item" when empty or
    absent, [qty] to 1, [rate] to 0 and [sort_order] to 0 (not to the
    item's position, as [create] does); no invoice is touched. *)
Theorem invoice_addItem_spec uid id body s d :
  List.filter (fun x => Nat.eqb (doc_id x) id && String.eqb (doc_user_id x) uid) (st_docs s)
    = [d] ->
  let it := mkLineItem id (default "Item" (js_or (dto_name body) None))
              (default 1 (dto_qty body)) (default 0 (dto_rate body))
              (default 0 (dto_sort_order body)) in
  exists s', invoice_addItem false uid id body s = (Ok it, s') /\
    st_items s' = st_items s ++ [it] /\ st_docs s' = st_docs s /\
    List.filter (fun i => Nat.eqb (item_doc_id i) id) (st_items s')
      = List.filter (fun i => Nat.eqb (item_doc_id i) id) (st_items s) ++ [it].
Proof.
  intros Hd it. unfold invoice_addItem, bind, get_st. rewrite Hd. cbn [single].
  unfold put_st, ret. eexists. split; [reflexivity|]. cbn [st_items st_docs].
  split; [done|]. split; [done|].
  rewrite List.filter_app. cbn. by rewrite Nat.eqb_refl.
Qed.

(** Witness of [invoice_addItem_spec]: [u1] adds an unnamed item to its
    document 1. *)
Lemma invoice_addItem_spec_witness :
  exists s', InvoiceItems.invoice_addItem false "u1" 1 (mkItemDto (Some "") None (Some 5) None)
               Fixtures.store1 = (Ok (mkLineItem 1 "Item" 1 5 0), s').
Proof.
  destruct (invoice_addItem_spec "u1" 1 (mkItemDto (Some "") None (Some 5) None)
              Fixtures.store1 Fixtures.doc_q1 eq_refl) as (s' & H & _).
  exists s'. exact H.
Defined.

End InvoiceFacts.

(* ------------------------------------------------------------------ *)
(** ** customers.controller.ts *)

Module CustomerFacts.
Import Js RecipientUtil Db Create WritePaths Customers NormalizerFacts NormalizerExtras.

Lemma set_customers_same s : set_customers (st_customers s) s = s.
Proof. by destruct s. Qed.

Lemma phoneForStorage_shape p v :
  phoneForStorage p = Some v -> length (chars v) = 10 /\ forallb is_digit (chars v) = true.
Proof.
  unfold phoneForStorage.
  destruct (Nat.ltb_spec (length (only_digits (chars (default "" p)))) 10); [done|].
  intros [= <-]. rewrite chars_of_chars. split.
  - rewrite slice_last_length. lia.
  - apply forallb_skipn, only_digits_digits.
Qed.

Lemma emailForStorage_shape p v :
  emailForStorage p = Some v -> email_regex (chars v) /\ normalizeEmail (Some v) = v.
Proof.
  intros H. pose proof H as H'. unfold emailForStorage in H.
  destruct (String.eqb (normalizeEmail p) "" || negb (email_regex_test (chars (normalizeEmail p))))
    eqn:Hb; [done|]. injection H as <-.
  apply orb_false_iff in Hb as [_ Hb]. apply negb_false_iff in Hb.
  split; [by apply email_regex_test_spec|apply normalizeEmail_idem].
Qed.

Lemma customer_row_single s id uid c :
  List.filter (fun x => String.eqb (cust_id x) id && String.eqb (cust_user_id x) uid)
    (st_customers s) = [c] -> customer_row s id uid = Some c.
Proof. unfold customer_row. intros ->. reflexivity. Qed.

(** Extra: [POST /customers] either fails and writes nothing, or adds one
    row and returns it: the row belongs to the caller, its name is the
    trimmed, non-empty name of the body, its phone is absent or exactly 10
    digits and its e-mail is absent or a lower-case, trimmed address
    matching the e-mail regular expression. *)
Theorem customer_create_spec e nid uid name phone email s r s' :
  customer_create e nid uid name phone email s = (r, s') ->
  (forall x, r = Exn x -> s' = s) /\
  (forall c, r = Ok c ->
     st_customers s' = st_customers s ++ [c] /\ cust_id c = nid /\ cust_user_id c = uid /\
     (exists n, name = Some n /\ cust_name c = Some (trim_s n) /\ trim_s n <> ""%string) /\
     (forall v, cust_phone c = Some v -> length (chars v) = 10 /\ forallb is_digit (chars v) = true) /\
     (forall v, cust_email c = Some v -> email_regex (chars v) /\ normalizeEmail (Some v) = v)).
Proof.
  unfold customer_create.
  destruct (truthy (option_map trim_s name)) eqn:Hn; cbn [negb];
    [|intros [= <- <-]; split; [done|discriminate]].
  destruct e; [intros [= <- <-]; split; [done|discriminate]|].
  unfold bind, get_st, put_st, ret. intros [= <- <-]. split; [discriminate|].
  intros c [= <-]. cbn. split; [done|]. split; [done|]. split; [done|]. split; [|split].
  - destruct name as [n|]; [|discriminate]. exists n. split; [done|]. split; [done|].
    cbn in Hn. by destruct (String.eqb_spec (trim_s n) "").
  - unfold customer_create_phone, js_nullish. intros v.
    destruct (phoneForStorage phone) eqn:Hp; [|discriminate]. intros [= <-].
    by apply phoneForStorage_shape in Hp.
  - unfold customer_create_email, js_nullish. intros v.
    destruct (emailForStorage email) eqn:Hp; [|discriminate]. intros [= <-].
    by apply emailForStorage_shape in Hp.
Qed.

(** Witness of [customer_create_spec]: [u1] creates " Carol " with phone
    "+91 98765 43210" and e-mail " Carol@X.com ". *)
Lemma customer_create_spec_witness :
  cust_name (mkCustomer "c9" "u1" (Some "Carol") (Some "9876543210") (Some "carol@x.com"))
    = Some (trim_s " Carol ") /\
  st_customers (snd (customer_create false "c9" "u1" (Some " Carol ")
                       (Some "+91 98765 43210") (Some " Carol@X.com ") Fixtures.store0))
    = st_customers Fixtures.store0 ++
      [mkCustomer "c9" "u1" (Some "Carol") (Some "9876543210") (Some "carol@x.com")].
Proof.
  destruct (customer_create false "c9" "u1" (Some " Carol ") (Some "+91 98765 43210")
              (Some " Carol@X.com ") Fixtures.store0) as [r s'] eqn:E.
  assert (Hr : r = Ok (mkCustomer "c9" "u1" (Some "Carol") (Some "9876543210")
                        (Some "carol@x.com"))) by (vm_compute in E; congruence).
  destruct (customer_create_spec false "c9" "u1" (Some " Carol ") (Some "+91 98765 43210")
              (Some " Carol@X.com ") Fixtures.store0 r s' E) as [_ H].
  destruct (H _ Hr) as (Hs & _ & _ & (n & Hn & Hname & _) & _).
  injection Hn as <-. split; [exact Hname|exact Hs].
Defined.

(** Extra: a customer created by a user is returned by [GET /customers/:id]
    to that user, and to no other user, as long as the id the database gave
    it is fresh. *)
Theorem customer_create_get nid uid name phone email s c s' :
  (forall x, In x (st_customers s) -> cust_id x <> nid) ->
  customer_create false nid uid name phone email s = (Ok c, s') ->
  customer_get false uid nid s' = (Ok c, s') /\
  (forall uid', uid' <> uid ->
     customer_get false uid' nid s'
       = (Exn (NotFound "JSON object requested, multiple (or no) rows returned"), s')).
Proof.
  intros Hfresh Hrun.
  destruct (customer_create_spec false nid uid name phone email s (Ok c) s' Hrun)
    as [_ H]. destruct (H c eq_refl) as (Hs & Hid & Huid & _).
  assert (Hold : forall u, List.filter
            (fun x => String.eqb (cust_id x) nid && String.eqb (cust_user_id x) u)
            (st_customers s) = []).
  { intros u. clear -Hfresh. induction (st_customers s) as [|x cs IH]; [done|]. cbn.
    destruct (String.eqb_spec (cust_id x) nid) as [E|_].
    - exfalso. apply (Hfresh x); [by left|exact E].
    - apply IH. intros y Hy. apply Hfresh. by right. }
  split.
  - unfold customer_get, bind, get_st, ret. unfold customer_row.
    rewrite Hs, List.filter_app, Hold. cbn. rewrite Hid, Huid, !String.eqb_refl. done.
  - intros uid' Hne. unfold customer_get, bind, get_st, throw. unfold customer_row.
    rewrite Hs, List.filter_app, Hold. cbn. rewrite Hid, Huid, String.eqb_refl.
    destruct (String.eqb_spec uid uid'); [congruence|]. done.
Qed.

(** Witness of [customer_create_get]: [u1] creates customer "c9" in
    [store0] and reads it back. *)
Lemma customer_create_get_witness :
  exists c s', customer_create false "c9" "u1" (Some "Carol") None None Fixtures.store0
                 = (Ok c, s') /\ customer_get false "u1" "c9" s' = (Ok c, s').
Proof.
  destruct (customer_create false "c9" "u1" (Some "Carol") None None Fixtures.store0)
    as [r s'] eqn:E.
  destruct r as [c|x]; [|vm_compute in E; discriminate].
  exists c, s'. split; [reflexivity|].
  apply (customer_create_get "c9" "u1" (Some "Carol") None None Fixtures.store0 c s'); [|exact E].
  intros x [<-|[]]. discriminate.
Defined.

Lemma owned_c_false uid id c :
  ~ (cust_id c = id /\ cust_user_id c = uid) ->
  (String.eqb (cust_id c) id && String.eqb (cust_user_id c) uid) = false.
Proof.
  intros H. destruct (String.eqb_spec (cust_id c) id), (String.eqb_spec (cust_user_id c) uid);
    try done. tauto.
Qed.

Lemma filter_none_owned_c uid id cs :
  Forall (fun c => ~ (cust_id c = id /\ cust_user_id c = uid)) cs ->
  List.filter (fun c => String.eqb (cust_id c) id && String.eqb (cust_user_id c) uid) cs = [] /\
  List.filter (fun c => negb (String.eqb (cust_id c) id && String.eqb (cust_user_id c) uid)) cs
    = cs.
Proof.
  induction 1 as [|c cs Hc _ [IH1 IH2]]; [done|]. cbn.
  rewrite owned_c_false by exact Hc. cbn. by rewrite IH1, IH2.
Qed.

(** Extra: [update], [delete] and [get] on customers never add, change or
    remove a customer of another user, and a request for a customer id the
    caller does not own changes nothing: [get] fails with Not Found,
    [update] with the PostgREST "no rows" error, while [delete] still
    answers [success: true]. *)
Theorem customer_handlers_scoped uid s :
  (forall e id p r s', customer_update e uid id p s = (r, s') ->
     forall c, cust_user_id c <> uid -> (In c (st_customers s') <-> In c (st_customers s))) /\
  (forall e id r s', customer_delete e uid id s = (r, s') ->
     forall c, cust_user_id c <> uid -> (In c (st_customers s') <-> In c (st_customers s))) /\
  (forall e id r s', customer_get e uid id s = (r, s') -> s' = s) /\
  (forall id, Forall (fun c => ~ (cust_id c = id /\ cust_user_id c = uid)) (st_customers s) ->
     customer_get false uid id s
       = (Exn (NotFound "JSON object requested, multiple (or no) rows returned"), s) /\
     (forall e p, customer_update e uid id p s
                  = (Exn (BadRequest "JSON object requested, multiple (or no) rows returned"), s)) /\
     customer_delete false uid id s = (Ok true, s)).
Proof.
  split; [|split; [|split]].
  - intros e id p r s' Hrun c Hc. revert Hrun. unfold customer_update, bind, get_st.
    destruct (single _) as [x|]; [|intros [= _ <-]; done].
    destruct e; [intros [= _ <-]; done|].
    unfold put_st, ret. intros [= _ <-]. cbn. rewrite in_map_iff. split.
    + intros (y & Hy & Hin). destruct (_ && _) eqn:Ho; [|by subst].
      apply andb_true_iff in Ho as [_ Ho]. apply String.eqb_eq in Ho.
      subst c. cbn in Hc. congruence.
    + intros Hin. exists c. split; [|done].
      destruct (String.eqb_spec (cust_user_id c) uid); [congruence|].
      by rewrite andb_false_r.
  - intros e id r s' Hrun c Hc. revert Hrun. unfold customer_delete.
    destruct e; [intros [= _ <-]; done|].
    unfold bind, get_st, put_st, ret. intros [= _ <-]. cbn.
    rewrite filter_In. split; [tauto|]. intros Hin. split; [done|].
    destruct (String.eqb_spec (cust_user_id c) uid); [congruence|].
    by rewrite andb_false_r.
  - intros e id r s' Hrun. revert Hrun. unfold customer_get.
    destruct e; [intros [= _ <-]; done|].
    unfold bind, get_st. destruct (customer_row s id uid); intros [= _ <-]; done.
  - intros id Hnone. destruct (filter_none_owned_c uid id (st_customers s) Hnone) as [H1 H2].
    split; [|split].
    + unfold customer_get, bind, get_st, customer_row. by rewrite H1.
    + intros e p. unfold customer_update, bind, get_st. by rewrite H1.
    + unfold customer_delete, bind, get_st, put_st, ret. by rewrite H2, set_customers_same.
Qed.

(** Witness of [customer_handlers_scoped]: [u2] reads, renames and deletes
    customer [c1] of [u1]. *)
Lemma customer_handlers_scoped_witness :
  customer_get false "u2" "c1" Fixtures.store0
    = (Exn (NotFound "JSON object requested, multiple (or no) rows returned"), Fixtures.store0) /\
  customer_delete false "u2" "c1" Fixtures.store0 = (Ok true, Fixtures.store0).
Proof.
  destruct (customer_handlers_scoped "u2" Fixtures.store0) as (_ & _ & _ & H).
  destruct (H "c1"%string) as (Hg & _ & Hd).
  - repeat constructor. cbn. intros [_ E]. discriminate.
  - split; [exact Hg|exact Hd].
Defined.

(** Extra: [PATCH /customers/:id] on the caller's own customer writes the
    [name] of the body as it is sent: unlike [create], it neither trims it
    nor refuses an empty or null name. The id and the owner of the row are
    kept, and the updated row is returned. *)
Theorem customer_update_name uid id p s c :
  List.filter (fun x => String.eqb (cust_id x) id && String.eqb (cust_user_id x) uid)
    (st_customers s) = [c] ->
  exists s', customer_update false uid id p s = (Ok (apply_patch p c), s') /\
    In (apply_patch p c) (st_customers s') /\
    cust_id (apply_patch p c) = cust_id c /\ cust_user_id (apply_patch p c) = cust_user_id c /\
    (forall v, cp_name p = Some v -> cust_name (apply_patch p c) = v).
Proof.
  intros Hc. unfold customer_update, bind, get_st. rewrite Hc. cbn [single].
  unfold put_st, ret. eexists. split; [reflexivity|]. split; [|split; [done|split; [done|]]].
  - cbn. apply in_map_iff. exists c. split.
    + assert (Hin : In c (List.filter (fun x => String.eqb (cust_id x) id &&
                                                String.eqb (cust_user_id x) uid)
                            (st_customers s))) by (rewrite Hc; by left).
      apply filter_In in Hin as [_ ->]. done.
    + assert (Hin : In c (List.filter (fun x => String.eqb (cust_id x) id &&
                                                String.eqb (cust_user_id x) uid)
                            (st_customers s))) by (rewrite Hc; by left).
      by apply filter_In in Hin as [? _].
  - intros v Hv. unfold apply_patch. cbn. by rewrite Hv.
Qed.

(** Witness of [customer_update_name]: [u1] renames [c1] to "  ", which
    [create] would refuse. *)
Lemma customer_update_name_witness :
  exists s', customer_update false "u1" "c1" (mkPatch (Some (Some "  ")) None None)
               Fixtures.store0
             = (Ok (mkCustomer "c1" "u1" (Some "  ") (Some "+91 98765 43210") None), s').
Proof.
  destruct (customer_update_name "u1" "c1" (mkPatch (Some (Some "  ")) None None)
              Fixtures.store0 (mkCustomer "c1" "u1" (Some "Bob") (Some "+91 98765 43210") None)
              eq_refl) as (s' & H & _).
  exists s'. exact H.
Defined.

End CustomerFacts.

(* ------------------------------------------------------------------ *)
(** ** invoices.controller.ts: the invoice list *)

Module InvoiceListFacts.
Import Db Like View InvoiceList ReceiverFacts.

Lemma NoDup_map_in {A B} (f : A -> B) l x y :
  NoDup (map f l) -> In x l -> In y l -> f x = f y -> x = y.
Proof.
  induction l as [|a l IH]; intros H Hx Hy E; [done|].
  cbn in H. inversion H as [|? ? Hn Hd]; subst.
  destruct Hx as [<-|Hx], Hy as [<-|Hy]; [done| | |by apply IH].
  - exfalso. apply Hn, list_elem_of_In. rewrite E. by apply in_map.
  - exfalso. apply Hn, list_elem_of_In. rewrite <- E. by apply in_map.
Qed.

Lemma map_set_consistent (k : nat) (v : document) m :
  (forall b, In b m -> b.1 = k -> b = (k, v)) ->
  map_set Nat.eqb k v m = if existsb (fun b => Nat.eqb b.1 k) m then m else m ++ [(k, v)].
Proof.
  induction m as [|[k' v'] r IH]; intros H; [done|]. cbn.
  destruct (Nat.eqb_spec k' k) as [->|Hne].
  - cbn. rewrite (H (k, v')); [done|by left|done].
  - cbn. rewrite IH; [|intros b Hb; apply H; by right].
    by destruct (existsb _ r).
Qed.

Section SetAll.
Variable U : list (nat * document).
Hypothesis HU : forall a b, In a U -> In b U -> a.1 = b.1 -> a = b.

Lemma map_set_step x m :
  In x U -> incl m U -> NoDup (map fst m) ->
  NoDup (map fst (map_set Nat.eqb x.1 x.2 m)) /\ incl (map_set Nat.eqb x.1 x.2 m) U /\
  (forall kv, In kv (map_set Nat.eqb x.1 x.2 m) <-> kv = x \/ In kv m).
Proof.
  intros Hx Hm Hk. destruct x as [k v]. cbn [fst snd].
  rewrite map_set_consistent
    by (intros b Hb Hbk; apply HU; [by apply Hm|done|done]).
  destruct (existsb (fun b => Nat.eqb b.1 k) m) eqn:E.
  - apply existsb_exists in E as (b & Hb & Hbk). apply Nat.eqb_eq in Hbk.
    assert (b = (k, v)) as -> by (apply HU; [by apply Hm|done|done]).
    split; [done|]. split; [done|]. intros kv. split; [tauto|]. intros [->|H]; done.
  - split; [|split].
    + rewrite map_app. apply NoDup_snoc; [done|]. intros Hin.
      apply in_map_iff in Hin as (b & Hbk & Hb).
      assert (existsb (fun b => Nat.eqb b.1 k) m = true)
        by (apply existsb_exists; exists b; split; [done|by apply Nat.eqb_eq]).
      congruence.
    + intros kv Hkv. apply in_app_or in Hkv as [H|[<-|[]]]; [by apply Hm|done].
    + intros kv. rewrite in_app_iff. cbn. split; [intros [H|[<-|[]]]; tauto|intros [<-|H]; tauto].
Qed.

Lemma set_all_spec xs m :
  incl xs U -> incl m U -> NoDup (map fst m) ->
  NoDup (map fst (set_all xs m)) /\ incl (set_all xs m) U /\
  (forall kv, In kv (set_all xs m) <-> In kv xs \/ In kv m).
Proof.
  revert m; induction xs as [|x xs IH]; intros m Hxs Hm Hk.
  - cbn. split; [done|]. split; [done|]. tauto.
  - unfold set_all. cbn [fold_left]. fold (set_all xs (map_set Nat.eqb x.1 x.2 m)).
    destruct (map_set_step x m) as (Hk' & Hm' & Hin'); [apply Hxs; by left|done|done|].
    destruct (IH (map_set Nat.eqb x.1 x.2 m)) as (H1 & H2 & H3);
      [intros y Hy; apply Hxs; by right|done|done|].
    split; [done|]. split; [done|]. intros kv. rewrite H3, Hin'. cbn.
    split; [intros [H|[->|H]]; tauto|intros [[<-|H]|H]; tauto].
Qed.

End SetAll.

(** Extra: when invoice ids are unique and the query of the sent invoices
    succeeds, the invoice list succeeds and holds, each once, the caller's
    own invoices as stored and, tagged as received, every invoice of
    another user whose stored [recipient_phone] equals the caller's
    normalised phone (when non-empty and the phone query succeeded) or
    whose stored [recipient_email] equals the caller's lower-cased e-mail
    (when non-empty and the e-mail query succeeded), in whatever order the
    final sort gives. A failed received query is not reported: its
    invoices are silently missing. A failed profile query makes the
    identity fall back to the caller's token. *)
Theorem invoice_list_spec (sort : list document -> list document)
    (Hsort : forall l, Permutation (sort l) l) (pe phe eme : bool) u s myPhone myEmail :
  invoice_list_identity (if pe then None else find_profile s (au_id u)) u
    = (myPhone, myEmail) ->
  NoDup (map doc_id (st_docs s)) ->
  exists l, invoice_list sort false pe phe eme u s = Ok l /\ NoDup l /\
    forall x, In x l <->
      (In x (st_docs s) /\ doc_user_id x = au_id u) \/
      (exists d, In d (st_docs s) /\ doc_user_id d <> au_id u /\
         ((phe = false /\ myPhone <> ""%string /\ doc_recipient_phone d = Some myPhone) \/
          (eme = false /\ myEmail <> ""%string /\ doc_recipient_email d = Some myEmail)) /\
         x = with_type d "received").
Proof.
  intros Hid Hids. unfold invoice_list. cbv zeta. rewrite Hid. cbn [negb].
  eexists. split; [reflexivity|].
  set (uid := au_id u). set (docs := st_docs s).
  set (U := map (fun d => (doc_id d, with_type d "received")) docs).
  assert (HU : forall a b, In a U -> In b U -> a.1 = b.1 -> a = b).
  { intros a b Ha Hb E. apply in_map_iff in Ha as (da & <- & Ha).
    apply in_map_iff in Hb as (db & <- & Hb). cbn in E.
    by rewrite (NoDup_map_in doc_id docs da db Hids Ha Hb E). }
  set (rows (err : bool) col v := if err then [] else
        map (fun d => (doc_id d, with_type d "received"))
        (List.filter (fun d => negb (String.eqb (doc_user_id d) uid) && eq_filter v (col d))
           docs)).
  assert (Hrows : forall err col v, incl (rows err col v) U).
  { intros [|] col v kv Hkv; [done|]. apply in_map_iff in Hkv as (d & <- & Hd).
    apply filter_In in Hd as [Hd _]. apply in_map_iff. by exists d. }
  assert (Hrows_In : forall err col v kv, In kv (rows err col v) <->
     err = false /\ exists d, In d docs /\ doc_user_id d <> uid /\ col d = Some v /\
               kv = (doc_id d, with_type d "received")).
  { intros [|] col v kv; [split; [intros []|intros [? _]; discriminate]|].
    unfold rows. rewrite in_map_iff. split; [intros H; split; [done|]; revert H|intros [_ H]; revert H].
    - intros (d & <- & Hd). apply filter_In in Hd as [Hd Hc].
      apply andb_true_iff in Hc as [Hu Hc]. apply negb_true_iff in Hu.
      apply eq_filter_iff in Hc. exists d. split; [done|]. split; [|done].
      by apply String.eqb_neq.
    - intros (d & Hd & Hu & Hc & ->). exists d. split; [done|]. apply filter_In.
      split; [done|]. apply andb_true_iff. split.
      + apply negb_true_iff. by apply String.eqb_neq.
      + by apply eq_filter_iff. }
  set (m1 := if truthy (Some myPhone) then set_all (rows phe doc_recipient_phone myPhone) [] else []).
  set (m2 := if truthy (Some myEmail) then set_all (rows eme doc_recipient_email myEmail) m1 else m1).
  assert (Hm1 : NoDup (map fst m1) /\ incl m1 U /\
     forall kv, In kv m1 <-> truthy (Some myPhone) = true /\ In kv (rows phe doc_recipient_phone myPhone)).
  { subst m1. destruct (truthy (Some myPhone)).
    - destruct (set_all_spec U HU (rows phe doc_recipient_phone myPhone) [])
        as (H1 & H2 & H3); [apply Hrows|intros ? []|constructor|].
      split; [done|]. split; [done|]. intros kv. rewrite H3. cbn. tauto.
    - split; [constructor|]. split; [intros ? []|]. cbn. split; [intros []|intros [? _]; discriminate]. }
  destruct Hm1 as (Hk1 & Hi1 & Hin1).
  assert (Hm2 : NoDup (map fst m2) /\ incl m2 U /\
     forall kv, In kv m2 <-> In kv m1 \/
       (truthy (Some myEmail) = true /\ In kv (rows eme doc_recipient_email myEmail))).
  { subst m2. destruct (truthy (Some myEmail)).
    - destruct (set_all_spec U HU (rows eme doc_recipient_email myEmail) m1)
        as (H1 & H2 & H3); [apply Hrows|done|done|].
      split; [done|]. split; [done|]. intros kv. rewrite H3. tauto.
    - split; [done|]. split; [done|].
      intros kv. split; [by left|intros [H|[? _]]; [done|discriminate]]. }
  destruct Hm2 as (Hk2 & Hi2 & Hin2).
  set (sent := List.filter (fun d => String.eqb (doc_user_id d) uid) docs).
  assert (Hvals : forall x, In x (map snd m2) <->
     exists d, In d docs /\ doc_user_id d <> uid /\
       ((phe = false /\ myPhone <> ""%string /\ doc_recipient_phone d = Some myPhone) \/
        (eme = false /\ myEmail <> ""%string /\ doc_recipient_email d = Some myEmail)) /\
       x = with_type d "received").
  { intros x. rewrite in_map_iff. split.
    - intros (kv & <- & Hkv). apply Hin2 in Hkv as [Hkv|[Ht Hkv]].
      + apply Hin1 in Hkv as [Ht Hkv].
        apply Hrows_In in Hkv as (He & d & Hd & Hu & Hc & ->).
        exists d. split; [done|]. split; [done|]. split; [|done]. left.
        split; [done|]. split; [by apply truthy_some_iff|done].
      + apply Hrows_In in Hkv as (He & d & Hd & Hu & Hc & ->).
        exists d. split; [done|]. split; [done|]. split; [|done]. right.
        split; [done|]. split; [by apply truthy_some_iff|done].
    - intros (d & Hd & Hu & [(He & Hne & Hc)|(He & Hne & Hc)] & ->).
      + exists (doc_id d, with_type d "received"). split; [done|].
        apply Hin2. left. apply Hin1. split; [by apply truthy_some_iff|].
        apply Hrows_In. split; [done|]. by exists d.
      + exists (doc_id d, with_type d "received"). split; [done|].
        apply Hin2. right. split; [by apply truthy_some_iff|].
        apply Hrows_In. split; [done|]. by exists d. }
  assert (Hkey : forall kv, In kv m2 -> kv.1 = doc_id kv.2).
  { intros kv Hkv. apply Hi2 in Hkv. apply in_map_iff in Hkv as (d & <- & _). done. }
  assert (Hnd_vals : NoDup (map snd m2)).
  { apply NoDup_ListNoDup, (List.NoDup_map_inv doc_id). rewrite map_map.
    rewrite (map_ext_in (fun kv => doc_id kv.2) fst m2); [by apply NoDup_ListNoDup|].
    intros kv Hkv. symmetry. by apply Hkey. }
  assert (Hnd_sent : NoDup sent).
  { apply NoDup_ListNoDup, List.NoDup_filter, (List.NoDup_map_inv doc_id).
    by apply NoDup_ListNoDup. }
  assert (Hnd : NoDup (sent ++ map snd m2)).
  { apply NoDup_app. split; [done|split; [|done]].
    intros x Hx Hx'. apply list_elem_of_In in Hx, Hx'.
    apply filter_In in Hx as [_ Hx]. apply String.eqb_eq in Hx.
    apply Hvals in Hx' as (d & _ & Hu & _ & ->). cbn in Hx. congruence. }
  split.
  - apply NoDup_ListNoDup, (Permutation_NoDup (Permutation_sym (Hsort _))).
    by apply NoDup_ListNoDup.
  - intros x. split.
    + intros Hx. apply (Permutation_in _ (Hsort _)) in Hx.
      apply in_app_or in Hx as [Hx|Hx].
      * left. apply filter_In in Hx as [Hx Hu]. split; [done|]. by apply String.eqb_eq.
      * right. by apply Hvals.
    + intros Hx. apply (Permutation_in _ (Permutation_sym (Hsort _))).
      apply in_or_app. destruct Hx as [[Hx Hu]|Hx].
      * left. apply filter_In. split; [done|]. by apply String.eqb_eq.
      * right. by apply Hvals.
Qed.

(** Witness of [invoice_list_spec]: [u2], whose profile phone is
    "9876543210", lists the invoices of [store1] with the identity sort. *)
Lemma invoice_list_spec_witness :
  exists l, invoice_list (fun l => l) false false false false (Fixtures.caller "u2")
              Fixtures.store1 = Ok l /\
    In (with_type Fixtures.doc_q1 "received") l.
Proof.
  destruct (invoice_list_spec (fun l => l) (fun l => Permutation_refl l) false false false
              (Fixtures.caller "u2") Fixtures.store1 "9876543210" "")
    as (l & Hl & _ & Hin); [reflexivity|cbn; apply NoDup_singleton|].
  exists l. split; [exact Hl|]. apply Hin. right. exists Fixtures.doc_q1.
  split; [by left|]. split; [discriminate|]. split; [|done]. left. done.
Defined.

End InvoiceListFacts.
